(** * Verification of the NV200 client library (nv200-python-lib)

    Shallow embedding of the device communication core:
    - [PyRT]: the part of the Python runtime the code relies on: exceptions,
      [int()] / [math.ceil] on floats, [float(int)] and [int / int];
    - [Wire]: [DeviceClient._parse_response], [DeviceError], [ErrorCode];
    - [Client]: [DeviceClient.write] / [read] over a link whose replies
      arrive after a given delay;
    - [Recorder]: [DataRecorder.set_recording_duration_ms];
    - [Waveform]: [WaveformGenerator.generate_sine_wave] and [is_running];
    - [Lantronix]: [parse_responses] and [discover_lantronix_devices];
    - [Discovery]: [_enrich_device_info] and the enrichment step of
      [discover_devices];
    - [Status]: [StatusRegister], [get_status_register], [is_status_flag_set];
    - [Pid]: [set_pid_mode], [set_setpoint], [move_to_position],
      [move_to_voltage];
    - [RecorderData]: the recorder's enums, [read_recorded_data_of_channel]
      and [read_recorded_data];
    - [WaveformIO]: [WaveformData.sample_factor], [set_output_sampling_time],
      [set_waveform_value], [set_waveform_buffer], [set_waveform];
    - [LantronixLookup]: [find_device_by_mac] and
      [discover_lantronix_device].

    Python floats are IEEE-754 binary64 values, modelled by the kernel's
    primitive floats ([PrimFloat]); every float operation of the source is
    the corresponding primitive operation. *)

From Stdlib Require Import ZArith List Bool Ascii String Lia.
From Stdlib Require Import Reals Lra.
From Stdlib Require Import QArith Qround.
From Stdlib Require Import Floats.
From Stdlib Require Strings.Byte.
Import ListNotations.

(* ------------------------------------------------------------------ *)
(** ** Python runtime *)

Module PyRT.

(** The exceptions the embedded code can raise. *)
Inductive exn :=
| DeviceErrorExn (code : Z)      (* DeviceError carrying error_code.value *)
| AttributeError
| ValueError
| OverflowError
| ZeroDivisionError
| IndexError
| TimeoutError
| TypeError
| ConnectionError
| OSError.

Inductive result (A : Type) :=
| Ok (a : A)
| Err (e : exn).
Arguments Ok {A} a.
Arguments Err {A} e.

Definition bind {A B} (r : result A) (f : A -> result B) : result B :=
  match r with Ok a => f a | Err e => Err e end.

Notation "'let!' x := r 'in' b" := (bind r (fun x => b))
  (at level 200, x name, r at level 100, b at level 200).

(** Python [int(x)] for a float [x]: truncation toward zero. *)
Definition py_int_of_float (x : float) : result Z :=
  match Prim2SF x with
  | S754_zero _ => Ok 0%Z
  | S754_infinity _ => Err OverflowError
  | S754_nan => Err ValueError
  | S754_finite s m e =>
      let a := if (0 <=? e)%Z then (Zpos m * 2 ^ e)%Z
               else (Zpos m / 2 ^ (- e))%Z in
      Ok (if s then (- a)%Z else a)
  end.

(** Python [math.ceil(x)] for a float [x]. *)
Definition py_ceil (x : float) : result Z :=
  match Prim2SF x with
  | S754_zero _ => Ok 0%Z
  | S754_infinity _ => Err OverflowError
  | S754_nan => Err ValueError
  | S754_finite s m e =>
      if (0 <=? e)%Z then
        let a := (Zpos m * 2 ^ e)%Z in Ok (if s then (- a)%Z else a)
      else
        let q := (Zpos m / 2 ^ (- e))%Z in
        let r := (Zpos m mod 2 ^ (- e))%Z in
        Ok (if s then (- q)%Z else if (r =? 0)%Z then q else (q + 1)%Z)
  end.

(** Python [float(n)] for an int [n]: correctly rounded, [OverflowError]
    when the value is beyond the largest double. *)
Definition py_float_of_int (n : Z) : result float :=
  match binary_normalize prec emax n 0 false with
  | S754_infinity _ => Err OverflowError
  | sf => Ok (SF2Prim sf)
  end.

(** Python [a / b] on two ints: the correctly rounded quotient. *)
Definition py_int_truediv (a b : Z) : result float :=
  if (b =? 0)%Z then Err ZeroDivisionError
  else
    let neg := xorb (a <? 0)%Z (b <? 0)%Z in
    match Z.abs a with
    | Z0 => Ok (if neg then (-0)%float else 0%float)
    | Zpos pa =>
        let '(mz, ez, lz) :=
          SFdiv_core_binary prec emax (Zpos pa) 0 (Z.abs b) 0 in
        match binary_round_aux prec emax neg mz ez lz with
        | S754_infinity _ => Err OverflowError
        | sf => Ok (SF2Prim sf)
        end
    | Zneg _ => Err ValueError
    end.

End PyRT.
Import PyRT.

(* ------------------------------------------------------------------ *)
(** ** Python strings *)

(** A Python [str] of the protocol: a list of characters (code points
    0..255; the NV200 protocol is ASCII, where [bytes.decode('utf-8')] is
    the identity). *)
Module PyStr.

Definition str := list ascii.
Definition lit (s : string) : str := list_ascii_of_string s.

Definition chr (n : nat) : ascii := ascii_of_nat n.

Fixpoint startswith (prefix s : str) : bool :=
  match prefix, s with
  | [], _ => true
  | p :: ps, c :: cs => Ascii.eqb p c && startswith ps cs
  | _ :: _, [] => false
  end.

Definition mem (c : ascii) (cs : list ascii) : bool :=
  existsb (Ascii.eqb c) cs.

(** [s.lstrip(cs)] and [s.strip(cs)]. *)
Fixpoint lstrip (cs : list ascii) (s : str) : str :=
  match s with
  | c :: r => if mem c cs then lstrip cs r else s
  | [] => []
  end.
Definition rstrip (cs : list ascii) (s : str) : str := rev (lstrip cs (rev s)).
Definition strip (cs : list ascii) (s : str) : str := rstrip cs (lstrip cs s).

(** The characters [str.isspace] accepts among code points 0..255. *)
Definition whitespace : list ascii :=
  map chr [9; 10; 11; 12; 13; 28; 29; 30; 31; 32; 133; 160]%nat.

(** [s.split(sep)]. *)
Fixpoint split (sep : ascii) (s : str) : list str :=
  match s with
  | [] => [[]]
  | c :: r =>
      if Ascii.eqb c sep then [] :: split sep r
      else match split sep r with
           | w :: ws => (c :: w) :: ws
           | [] => [[c]]
           end
  end.

(** [s.split(sep, 1)]. *)
Fixpoint split1 (sep : ascii) (s : str) : list str :=
  match s with
  | [] => [[]]
  | c :: r =>
      if Ascii.eqb c sep then [[]; r]
      else match split1 sep r with
           | w :: ws => (c :: w) :: ws
           | [] => [[c]]
           end
  end.

Definition digit_value (c : ascii) : option Z :=
  let n := nat_of_ascii c in
  if (48 <=? n)%nat && (n <=? 57)%nat then Some (Z.of_nat (n - 48)) else None.

(** Decimal digits, with single underscores allowed between digits. *)
Fixpoint digits_from (acc : Z) (after_us : bool) (s : str) : option Z :=
  match s with
  | [] => if after_us then None else Some acc
  | c :: r =>
      match digit_value c with
      | Some d => digits_from (acc * 10 + d)%Z false r
      | None =>
          if Ascii.eqb c "_"%char && negb after_us
          then digits_from acc true r else None
      end
  end.

Definition digits (s : str) : option Z :=
  match s with
  | c :: r =>
      match digit_value c with
      | Some d => digits_from d false r
      | None => None
      end
  | [] => None
  end.

(** The default limit on the digits [int(s)] converts
    ([sys.get_int_max_str_digits()]). *)
Definition PY_INT_MAX_STR_DIGITS : nat := 4300.

Definition count_digits (s : str) : nat :=
  List.length (filter (fun c => match digit_value c with Some _ => true | None => false end) s).

(** Python [int(s)] for a [str] in base 10; a literal of more than 4300
    digits raises [ValueError] like an invalid one. *)
Definition py_int_of_str (s : str) : result Z :=
  let t := strip whitespace s in
  let '(neg, body) :=
    match t with
    | c :: r =>
        if Ascii.eqb c "-"%char then (true, r)
        else if Ascii.eqb c "+"%char then (false, r)
        else (false, t)
    | [] => (false, t)
    end in
  match digits body with
  | Some n =>
      if (PY_INT_MAX_STR_DIGITS <? count_digits body)%nat then Err ValueError
      else Ok (if neg then (- n)%Z else n)
  | None => Err ValueError
  end.

(** [str(n)] for an int. *)
Fixpoint digits_of_pos_aux (fuel : nat) (p : Z) (acc : str) : str :=
  match fuel with
  | O => acc
  | S f =>
      let d := (p mod 10)%Z in
      let acc' := ascii_of_nat (48 + Z.to_nat d) :: acc in
      if (p <? 10)%Z then acc' else digits_of_pos_aux f (p / 10)%Z acc'
  end.

(** A decimal number has at most [log2 n + 1] digits: enough fuel. *)
Definition digit_fuel (n : Z) : nat := S (S (Z.to_nat (Z.log2 n))).

Definition py_str_of_int (n : Z) : str :=
  if (n <? 0)%Z then "-"%char :: digits_of_pos_aux (digit_fuel (- n)) (- n) []
  else digits_of_pos_aux (digit_fuel n) n [].

End PyStr.
Import PyStr.

(* ------------------------------------------------------------------ *)
(** ** Wire codec: [ErrorCode], [DeviceError], [_parse_response] *)

Module Wire.

Inductive ErrorCode :=
| ERROR_NOT_SPECIFIED
| UNKNOWN_COMMAND
| PARAMETER_MISSING
| ADMISSIBLE_PARAMETER_RANGE_EXCEEDED
| COMMAND_PARAMETER_COUNT_EXCEEDED
| PARAMETER_LOCKED_OR_READ_ONLY
| UNDERLOAD
| OVERLOAD
| PARAMETER_TOO_LOW
| PARAMETER_TOO_HIGH.

Definition value (c : ErrorCode) : Z :=
  match c with
  | ERROR_NOT_SPECIFIED => 1
  | UNKNOWN_COMMAND => 2
  | PARAMETER_MISSING => 3
  | ADMISSIBLE_PARAMETER_RANGE_EXCEEDED => 4
  | COMMAND_PARAMETER_COUNT_EXCEEDED => 5
  | PARAMETER_LOCKED_OR_READ_ONLY => 6
  | UNDERLOAD => 7
  | OVERLOAD => 8
  | PARAMETER_TOO_LOW => 9
  | PARAMETER_TOO_HIGH => 10
  end%Z.

Definition members : list ErrorCode :=
  [ERROR_NOT_SPECIFIED; UNKNOWN_COMMAND; PARAMETER_MISSING;
   ADMISSIBLE_PARAMETER_RANGE_EXCEEDED; COMMAND_PARAMETER_COUNT_EXCEEDED;
   PARAMETER_LOCKED_OR_READ_ONLY; UNDERLOAD; OVERLOAD; PARAMETER_TOO_LOW;
   PARAMETER_TOO_HIGH].

(** [ErrorCode.from_value]: the member with that value, else
    [ERROR_NOT_SPECIFIED]. *)
Definition from_value (v : Z) : ErrorCode :=
  match find (fun c => (value c =? v)%Z) members with
  | Some c => c
  | None => ERROR_NOT_SPECIFIED
  end.

(** The argument [DeviceError(...)] is called with: an [ErrorCode] member
    or a bare int. *)
Inductive DeviceErrorArg :=
| ArgCode (c : ErrorCode)
| ArgInt (n : Z).

(** [DeviceError.__init__]: the message f-string reads
    [self.error_code.value], which an int does not have. *)
Definition DeviceError (arg : DeviceErrorArg) : exn :=
  match arg with
  | ArgCode c => DeviceErrorExn (value c)
  | ArgInt _ => AttributeError
  end.

Definition ctrl_chars : list ascii := map chr [1; 10; 13; 0]%nat.

Definition ParsedResponse := (str * list str)%type.

(** [DeviceClient._parse_response]; [Ok None] is the Python [None] the
    function returns when it falls off its end. *)
Definition parse_response (response : str) : result (option ParsedResponse) :=
  if startswith (lit "error") response then
    let parts := split1 ","%char response in
    if (1 <? List.length parts)%nat then
      match py_int_of_str (strip ctrl_chars (nth 1 parts [])) with
      | Ok error_code => Err (DeviceError (ArgCode (from_value error_code)))
      | Err ValueError => Err (DeviceError (ArgInt 1))
      | Err e => Err e
      end
    else Ok None
  else
    let parts := split1 ","%char response in
    let command := strip whitespace (nth 0 parts []) in
    let parameters :=
      if (1 <? List.length parts)%nat
      then map (strip ctrl_chars) (split ","%char (nth 1 parts []))
      else [] in
    Ok (Some (command, parameters)).

End Wire.

(* ------------------------------------------------------------------ *)
(** ** Command client: [DeviceClient] over a transport *)

Module Client.
Import Wire.

(** A reply the device sends, [delay_ms] after the command that caused it.
    [data] is the reply after [.decode('utf-8')]: the model covers devices
    that answer in valid UTF-8 (on other bytes the decode raises
    [UnicodeDecodeError], which no theorem here accounts for). *)
Record Reply := { delay_ms : Z; data : str }.

(** The transport: what was written to it, and the replies still to be
    read, in order. A reply not read before a timeout stays in the queue. *)
Record Link := { sent : list str; pending : list Reply }.

(** Code running against the transport: state passing, Python exceptions
    propagate and keep the state reached so far. *)
Definition M (A : Type) := Link -> result A * Link.

Definition ret {A} (a : A) : M A := fun l => (Ok a, l).
Definition raise {A} (e : exn) : M A := fun l => (Err e, l).
Definition lift {A} (r : result A) : M A := fun l => (r, l).
Definition mbind {A B} (m : M A) (k : A -> M B) : M B :=
  fun l => match m l with
           | (Ok a, l') => k a l'
           | (Err e, l') => (Err e, l')
           end.

Notation "x <- m ;; k" := (mbind m (fun x => k))
  (at level 61, m at next level, right associativity).
Notation "m ;;; k" := (mbind m (fun _ => k))
  (at level 61, right associativity).

Definition CR : ascii := chr 13.

(** [DEFAULT_TIMEOUT_SECS = 0.4] and the 0.1 s of [write], in ms. *)
Definition DEFAULT_TIMEOUT_MS : Z := 400.
Definition WRITE_TIMEOUT_MS : Z := 100.

(** [TransportProtocol.write]. *)
Definition transport_write (s : str) : M unit :=
  fun l => (Ok tt, {| sent := sent l ++ [s]; pending := pending l |}).

(** [asyncio.wait_for(self._transport.read_response(), timeout)]. *)
Definition wait_for_response (timeout_ms : Z) : M str :=
  fun l =>
    match pending l with
    | r :: rest =>
        if (delay_ms r <? timeout_ms)%Z
        then (Ok (data r), {| sent := sent l; pending := rest |})
        else (Err TimeoutError, l)
    | [] => (Err TimeoutError, l)
    end.

(** No reply is readable within [timeout_ms]: the queue is empty or its
    first reply comes too late. *)
Definition no_reply_within (timeout_ms : Z) (l : Link) : Prop :=
  match pending l with
  | [] => True
  | r :: _ => (timeout_ms <= delay_ms r)%Z
  end.

(** [DeviceClient.write]: a timeout is caught and turned into [None]. *)
Definition write (cmd : str) : M (option ParsedResponse) :=
  transport_write (cmd ++ [CR]) ;;;
  fun l =>
    match wait_for_response WRITE_TIMEOUT_MS l with
    | (Ok response, l') => (parse_response response, l')
    | (Err TimeoutError, l') => (Ok None, l')
    | (Err e, l') => (Err e, l')
    end.

(** [DeviceClient.read]. *)
Definition read (cmd : str) (timeout_ms : Z) : M str :=
  transport_write (cmd ++ [CR]) ;;;
  wait_for_response timeout_ms.

(** [DeviceClient.read_response]. *)
Definition read_response (cmd : str) (timeout_ms : Z) : M (option ParsedResponse) :=
  response <- read cmd timeout_ms ;;
  lift (parse_response response).

(** [DeviceClient.read_values]: [(...)[1]] of the parsed response; a
    [None] response is not subscriptable. *)
Definition read_values (cmd : str) (timeout_ms : Z) : M (list str) :=
  p <- read_response cmd timeout_ms ;;
  match p with
  | Some (_, parameters) => ret parameters
  | None => raise TypeError
  end.

(** [DeviceClient.read_int_value]: [int(values[0])]. *)
Definition read_int_value (cmd : str) : M Z :=
  values <- read_values cmd DEFAULT_TIMEOUT_MS ;;
  match values with
  | v :: _ => lift (py_int_of_str v)
  | [] => raise IndexError
  end.

End Client.

(* ------------------------------------------------------------------ *)
(** ** Data recorder: [DataRecorder.set_recording_duration_ms] *)

Module Recorder.
Import Client.

Definition NV200_RECORDER_SAMPLE_RATE_HZ : Z := 20000.
Definition NV200_RECORDER_BUFFER_SIZE : Z := 6144.

Record RecorderParam := { bufsize : Z; stride : Z; sample_freq : float }.

(** [set_recorder_stride]. *)
Definition set_recorder_stride (stride : Z) : M unit :=
  write (lit "recstr," ++ py_str_of_int stride) ;;; ret tt.

(** [set_sample_buffer_size]: only [1 <= buffer_size <= 6144] is sent. *)
Definition set_sample_buffer_size (buffer_size : Z) : M unit :=
  if (1 <=? buffer_size)%Z && (buffer_size <=? NV200_RECORDER_BUFFER_SIZE)%Z
  then write (lit "reclen," ++ py_str_of_int buffer_size) ;;; ret tt
  else raise ValueError.

(** [1 / self.NV200_RECORDER_SAMPLE_RATE_HZ * self.NV200_RECORDER_BUFFER_SIZE]:
    an int division (correctly rounded) times the int 6144 as a float. *)
Definition buffer_duration_s : result float :=
  let! inv_rate := py_int_truediv 1 NV200_RECORDER_SAMPLE_RATE_HZ in
  let! c := py_float_of_int NV200_RECORDER_BUFFER_SIZE in
  Ok (inv_rate * c)%float.

(** [set_recording_duration_ms]. *)
Definition set_recording_duration_ms (milliseconds : float) : M RecorderParam :=
  let duration_s := (milliseconds / 1000)%float in
  bd <- lift buffer_duration_s ;;
  q <- lift (py_int_of_float (duration_s / bd)%float) ;;
  let stride := (q + 1)%Z in
  sample_rate <- lift (py_int_truediv NV200_RECORDER_SAMPLE_RATE_HZ stride) ;;
  c <- lift (py_ceil (sample_rate * duration_s)%float) ;;
  let buflen := Z.min c NV200_RECORDER_BUFFER_SIZE in
  set_recorder_stride stride ;;;
  set_sample_buffer_size buflen ;;;
  ret {| bufsize := buflen; stride := stride; sample_freq := sample_rate |}.

(** The plan in the words of the spec, in exact rational arithmetic
    (for comparison with [set_recording_duration_ms]): [buffer_window = C / R],
    [stride = floor(D/1000 / buffer_window) + 1], [effective_rate = R / stride],
    [buffer_length = min(ceil(effective_rate * D/1000), C)]. *)
Definition spec_buffer_window : Q :=
  (inject_Z NV200_RECORDER_BUFFER_SIZE / inject_Z NV200_RECORDER_SAMPLE_RATE_HZ)%Q.
Definition spec_stride (D : Q) : Z := (Qfloor (D / 1000 / spec_buffer_window) + 1)%Z.
Definition spec_effective_rate (D : Q) : Q :=
  (inject_Z NV200_RECORDER_SAMPLE_RATE_HZ / inject_Z (spec_stride D))%Q.
Definition spec_buffer_length (D : Q) : Z :=
  Z.min (Qceiling (spec_effective_rate D * D / 1000)) NV200_RECORDER_BUFFER_SIZE.

(** The same plan in IEEE double precision, as Python evaluates the words
    of the spec: [duration_s = D / 1000.0], [buffer_window = (1/20000) * 6144],
    [stride = int(duration_s / buffer_window) + 1],
    [sample_rate = 20000 / stride],
    [buffer_length = min(ceil(sample_rate * duration_s), 6144)]. *)
Definition spec_double_plan (D : float) : result RecorderParam :=
  let duration_s := (D / 1000)%float in
  let buffer_window := ((1 / 20000) * 6144)%float in
  let! q := py_int_of_float (duration_s / buffer_window)%float in
  let stride := (q + 1)%Z in
  let! sample_rate := py_int_truediv 20000 stride in
  let! c := py_ceil (sample_rate * duration_s)%float in
  Ok {| bufsize := Z.min c 6144; stride := stride; sample_freq := sample_rate |}.

End Recorder.

(* ------------------------------------------------------------------ *)
(** ** Waveform generator *)

Module Waveform.
Import Client.

Definition NV200_WAVEFORM_BUFFER_SIZE : Z := 1024.
Definition NV200_BASE_SAMPLE_TIME_US : Z := 50.

(** Python [a / b] for floats: [ZeroDivisionError] on a zero divisor. *)
Definition py_fdiv (a b : float) : result float :=
  if (b =? 0)%float then Err ZeroDivisionError else Ok (a / b)%float.

(** Python [x / n] for a float [x] and an int [n]: [n] is converted first. *)
Definition py_fdiv_int (x : float) (n : Z) : result float :=
  let! nf := py_float_of_int n in py_fdiv x nf.

(** [math.pi]. *)
Definition math_pi : float := 0x1.921fb54442d18p+1%float.

Fixpoint mapM {A B} (f : A -> result B) (l : list A) : result (list B) :=
  match l with
  | [] => Ok []
  | x :: r => let! y := f x in let! ys := mapM f r in Ok (y :: ys)
  end.

(** [range(n)]. *)
Definition range (n : Z) : list Z := map Z.of_nat (seq 0 (Z.to_nat n)).

(** [WaveformData(values=..., sample_time_ms=...)]. *)
Record WaveformData := { values : list float; sample_time_ms : float }.

(** The timing part of [generate_sine_wave]: [sample_factor],
    [sample_time_us] and [required_buffer]. *)
Record SineTiming := { sample_factor : Z; sample_time_us : Z; required_buffer : Z }.

Definition sine_timing (freq_hz : float) : result SineTiming :=
  let! million := py_float_of_int 1000000 in
  let! period_us := py_fdiv million freq_hz in
  let! ideal_sample_time_us := py_fdiv_int period_us NV200_WAVEFORM_BUFFER_SIZE in
  let! ideal_units := py_fdiv_int ideal_sample_time_us NV200_BASE_SAMPLE_TIME_US in
  let! sample_factor := py_ceil ideal_units in
  let sample_time_us := (sample_factor * NV200_BASE_SAMPLE_TIME_US)%Z in
  let! ratio := py_fdiv_int period_us sample_time_us in
  let! required_buffer := py_int_of_float ratio in
  Ok {| sample_factor := sample_factor; sample_time_us := sample_time_us;
        required_buffer := required_buffer |}.

Section Generate.
(** [math.sin] on a finite or NaN argument, left abstract. *)
Variable math_sin : float -> float.

(** [math.sin(x)]: [ValueError] ([math domain error]) for an infinite [x]. *)
Definition py_sin (x : float) : result float :=
  match Prim2SF x with
  | S754_infinity _ => Err ValueError
  | _ => Ok (math_sin x)
  end.

(** [WaveformGenerator.generate_sine_wave] (its diagnostic [print] apart). *)
Definition generate_sine_wave (freq_hz low_level high_level phase_shift_rad : float)
    : result WaveformData :=
  let! t := sine_timing freq_hz in
  let! sample_time_s := py_int_truediv (sample_time_us t) 1000000 in
  let amplitude := ((high_level - low_level) / 2)%float in
  let offset := ((high_level + low_level) / 2)%float in
  let! times_ms :=
    mapM (fun i => let! fi := py_float_of_int i in
                   Ok (fi * sample_time_s * 1000)%float)
         (range (required_buffer t)) in
  let! values :=
    mapM (fun t_ms =>
            let! y := py_sin (2 * math_pi * freq_hz * (t_ms / 1000) + phase_shift_rad)%float in
            Ok (offset + amplitude * y)%float)
         times_ms in
  let! st_ms := py_int_truediv (sample_time_us t) 1000 in
  Ok {| values := values; sample_time_ms := st_ms |}.

End Generate.

(** The values Python compares with [==]. *)
Inductive PyValue :=
| PyInt (z : Z)
| PyStr (s : str).

Fixpoint str_eqb (a b : str) : bool :=
  match a, b with
  | [], [] => true
  | x :: a', y :: b' => Ascii.eqb x y && str_eqb a' b'
  | _, _ => false
  end.

(** Python [==]: an int never equals a str. *)
Definition py_eq (a b : PyValue) : bool :=
  match a, b with
  | PyInt x, PyInt y => (x =? y)%Z
  | PyStr x, PyStr y => str_eqb x y
  | _, _ => false
  end.

(** [WaveformGenerator.is_running]. *)
Definition is_running : M bool :=
  response <- read_int_value (lit "grun") ;;
  ret (py_eq (PyInt response) (PyStr (lit "1"))).

End Waveform.

(* ------------------------------------------------------------------ *)
(** ** Lantronix discovery: [parse_responses], [discover_lantronix_devices] *)

Module Lantronix.

Definition LANTRONIX_RESPONSE_SIZE : nat := 30.
Definition LAMNTONIX_MAC_PREFIX : str := lit "00:80:A3".

(** A datagram received by [recvfrom]: its bytes and the sender's
    [(ip, port)]. *)
Definition Datagram := (list Byte.byte * (str * Z))%type.

(** [{'MAC': ..., 'IP': ...}]. *)
Record LantronixDevice := { MAC : str; IP : str }.

(** [bytes.hex()]: two lowercase hex digits per byte. *)
Definition hex_digit (n : nat) : ascii :=
  if (n <? 10)%nat then ascii_of_nat (48 + n) else ascii_of_nat (87 + n).
Definition byte_hex (b : Byte.byte) : str :=
  [hex_digit (Byte.to_nat b / 16); hex_digit (Byte.to_nat b mod 16)].
Definition bytes_hex (data : list Byte.byte) : str := flat_map byte_hex data.

(** [s[i:j]] for [0 <= i <= j]. *)
Definition slice (s : str) (i j : nat) : str := firstn (j - i) (skipn i s).

(** [sep.join(parts)]. *)
Fixpoint join (sep : str) (parts : list str) : str :=
  match parts with
  | [] => []
  | [x] => x
  | x :: rest => x ++ sep ++ join sep rest
  end.

(** [str.upper()] on ASCII (applied here to hex digits and [:]). *)
Definition ascii_upper (c : ascii) : ascii :=
  let n := nat_of_ascii c in
  if (97 <=? n)%nat && (n <=? 122)%nat then ascii_of_nat (n - 32) else c.
Definition upper (s : str) : str := map ascii_upper s.

(** [':'.join(mac_hex[48:60][i:i + 2] for i in range(0, 12, 2)).upper()]. *)
Definition mac_of_payload (data : list Byte.byte) : str :=
  let mac_hex := bytes_hex data in
  upper (join (lit ":")
           (map (fun i => slice (slice mac_hex 48 60) i (i + 2)) [0; 2; 4; 6; 8; 10]%nat)).

(** [parse_responses]; nothing in the loop body can raise on a
    [(bytes, (str, int))] pair, so its [except] is never taken. *)
Fixpoint parse_responses (response_list : list Datagram) : list LantronixDevice :=
  match response_list with
  | [] => []
  | (data, address) :: rest =>
      if negb (List.length data =? LANTRONIX_RESPONSE_SIZE)%nat
      then parse_responses rest
      else
        let mac_address := mac_of_payload data in
        if negb (startswith LAMNTONIX_MAC_PREFIX mac_address)
        then parse_responses rest
        else {| MAC := mac_address; IP := fst address |} :: parse_responses rest
  end.

(** The reply check and the MAC of the spec, on the bytes: 30 bytes, the
    6 bytes at offset 24, the OUI [00 80 A3]. *)
Definition spec_oui : list Byte.byte := [Byte.x00; Byte.x80; Byte.xa3].

Fixpoint bytes_eqb (a b : list Byte.byte) : bool :=
  match a, b with
  | [], [] => true
  | x :: a', y :: b' => Byte.eqb x y && bytes_eqb a' b'
  | _, _ => false
  end.

Definition spec_reply_valid (data : list Byte.byte) : bool :=
  (List.length data =? 30)%nat && bytes_eqb (firstn 3 (skipn 24 data)) spec_oui.

(** The MAC text: each byte as two uppercase hex digits, [:]-separated. *)
Definition spec_format_mac (mac : list Byte.byte) : str :=
  join (lit ":") (map (fun b => upper (byte_hex b)) mac).

Definition spec_parse (response_list : list Datagram) : list LantronixDevice :=
  map (fun '(data, address) =>
         {| MAC := spec_format_mac (firstn 6 (skipn 24 data)); IP := fst address |})
      (filter (fun '(data, _) => spec_reply_valid data) response_list).

Section Discover.
(** [send_udp_broadcast(local_ip)]: the datagrams received on that
    interface within the reply window, or the exception that escapes it
    (an [OSError] of [socket], [bind] or [sendto]; only [ValueError] and
    [IndexError] are caught there). *)
Variable send_udp_broadcast : str -> result (list Datagram).

(** The loop of [discover_lantronix_devices] over the interfaces of
    [get_active_ethernet_ips()]; the second component lists the local IPs
    a probe was sent from, in order. *)
Fixpoint discover_loop (ifaces : list (str * str)) (probed : list str)
    : result (list LantronixDevice) * list str :=
  match ifaces with
  | [] => (Ok [], probed)
  | (_, ip) :: rest =>
      let probed := probed ++ [ip] in
      match send_udp_broadcast ip with
      | Err e => (Err e, probed)
      | Ok device_responses =>
          match device_responses with
          | [] => discover_loop rest probed
          | _ :: _ =>
              match parse_responses device_responses with
              | [] => discover_loop rest probed
              | device_list => (Ok device_list, probed)
              end
          end
      end
  end.

Definition discover_lantronix_devices (ifaces : list (str * str))
    : result (list LantronixDevice) * list str :=
  discover_loop ifaces [].

(** The union over all interfaces the spec describes. *)
Fixpoint spec_union_scan (ifaces : list (str * str)) : result (list LantronixDevice) :=
  match ifaces with
  | [] => Ok []
  | (_, ip) :: rest =>
      let! responses := send_udp_broadcast ip in
      let! devices := spec_union_scan rest in
      Ok (parse_responses responses ++ devices)
  end.

End Discover.

End Lantronix.

(* ------------------------------------------------------------------ *)
(** ** Device discovery: [_enrich_device_info], [discover_devices] *)

Module Discovery.

Inductive TransportType := TELNET | SERIAL.

(** [DetectedDevice] with the fields [_enrich_device_info] reads and sets. *)
Record DetectedDevice := {
  transport : TransportType;
  identifier : str;
  mac : option str;
  actuator_name : option str;
  actuator_serial : option str
}.

(** What the controller behind a candidate answers: the outcome of
    [connect], of the identity query and of the two actuator queries. *)
Record DeviceBehaviour := {
  connect_result : result unit;
  device_type_result : result str;
  actuator_name_result : result str;
  actuator_serial_result : result str
}.

(** [NV200Device]: the device object built around a transport. *)
Record NV200Device := { dev_transport : TransportType; dev_identifier : str }.

Definition DEVICE_ID : str := lit "NV200/D_NET".

(** [NV200Device.from_detected_device]: a [TelnetProtocol] for [TELNET],
    a [SerialProtocol] for [SERIAL]; [TransportType] has no third member,
    so its [ValueError] branch is unreachable. Modelled from the spec:
    building a transport only records the identifier, the link is
    established by [connect()]. *)
Definition from_detected_device (d : DetectedDevice) : NV200Device :=
  match transport d with
  | TELNET => {| dev_transport := TELNET; dev_identifier := identifier d |}
  | SERIAL => {| dev_transport := SERIAL; dev_identifier := identifier d |}
  end.

(** Modelled from the spec: [close()] releases the link; it is idempotent
    and safe on a never-connected or already-closed instance. *)
Definition close (dev : NV200Device) : result unit := Ok tt.

(** [try: ... except Exception: ...]: every exception of the model is an
    [Exception]. *)
Definition try_except {A} (body : result A) (handler : exn -> result A) : result A :=
  match body with
  | Ok a => Ok a
  | Err e => handler e
  end.

Section Enrich.
(** The controller reachable through a transport and identifier. *)
Variable device_at : TransportType -> str -> DeviceBehaviour.

Definition behaviour (dev : NV200Device) : DeviceBehaviour :=
  device_at (dev_transport dev) (dev_identifier dev).

(** [_enrich_device_info]. *)
Definition enrich_device_info (dev_info : DetectedDevice) : result (option DetectedDevice) :=
  let dev := from_detected_device dev_info in
  try_except
    (let! _ := connect_result (behaviour dev) in
     let! dev_type := device_type_result (behaviour dev) in
     if negb (startswith DEVICE_ID dev_type) then
       let! _ := close dev in Ok None
     else
       let! name := actuator_name_result (behaviour dev) in
       let! serial := actuator_serial_result (behaviour dev) in
       let! _ := close dev in
       Ok (Some {| transport := transport dev_info; identifier := identifier dev_info;
                   mac := mac dev_info; actuator_name := Some name;
                   actuator_serial := Some serial |}))
    (fun _ => let! _ := close dev in Ok None).

(** [asyncio.gather] without [return_exceptions]: the first exception of
    any awaitable is raised, otherwise the list of results in order. *)
Fixpoint gather {A} (rs : list (result A)) : result (list A) :=
  match rs with
  | [] => Ok []
  | r :: rest => let! a := r in let! l := gather rest in Ok (a :: l)
  end.

Fixpoint keep_some {A} (l : list (option A)) : list A :=
  match l with
  | [] => []
  | Some a :: rest => a :: keep_some rest
  | None :: rest => keep_some rest
  end.

(** The [EXTENDED_INFO] step of [discover_devices]:
    [raw_results = await asyncio.gather(...)] and the [None]s dropped. *)
Definition enrich_devices (devices : list DetectedDevice) : result (list DetectedDevice) :=
  let! raw_results := gather (map enrich_device_info devices) in
  Ok (keep_some raw_results).

End Enrich.

End Discovery.

(* ------------------------------------------------------------------ *)
(** ** Status register: [StatusFlags], [StatusRegister] *)

Module Status.
Import Client.

(** [StatusFlags], an [IntFlag]. *)
Inductive StatusFlags :=
| ACTUATOR_CONNECTED
| SENSOR_TYPE_0
| SENSOR_TYPE_1
| CLOSED_LOOP_MODE
| LOW_PASS_FILTER_ON
| NOTCH_FILTER_ON
| SIGNAL_PROCESSING_ACTIVE
| AMPLIFIER_CHANNELS_BRIDGED
| TEMPERATURE_TOO_HIGH
| ACTUATOR_ERROR
| HARDWARE_ERROR
| I2C_ERROR
| LOWER_CONTROL_LIMIT_REACHED
| UPPER_CONTROL_LIMIT_REACHED.

Definition flag_value (f : StatusFlags) : Z :=
  match f with
  | ACTUATOR_CONNECTED => Z.shiftl 1 0
  | SENSOR_TYPE_0 => Z.shiftl 1 1
  | SENSOR_TYPE_1 => Z.shiftl 1 2
  | CLOSED_LOOP_MODE => Z.shiftl 1 3
  | LOW_PASS_FILTER_ON => Z.shiftl 1 4
  | NOTCH_FILTER_ON => Z.shiftl 1 5
  | SIGNAL_PROCESSING_ACTIVE => Z.shiftl 1 7
  | AMPLIFIER_CHANNELS_BRIDGED => Z.shiftl 1 8
  | TEMPERATURE_TOO_HIGH => Z.shiftl 1 10
  | ACTUATOR_ERROR => Z.shiftl 1 11
  | HARDWARE_ERROR => Z.shiftl 1 12
  | I2C_ERROR => Z.shiftl 1 13
  | LOWER_CONTROL_LIMIT_REACHED => Z.shiftl 1 14
  | UPPER_CONTROL_LIMIT_REACHED => Z.shiftl 1 15
  end.

(** [StatusFlags.get_sensor_type]: [&] and [>>] on Python ints are the
    two's-complement operations [Z.land] and [Z.shiftr]; the dict lookup
    with a default. *)
Definition get_sensor_type (value : Z) : str :=
  let sensor_bits :=
    Z.shiftr (Z.land value (Z.lor (flag_value SENSOR_TYPE_0) (flag_value SENSOR_TYPE_1))) 1 in
  if (sensor_bits =? 0)%Z then lit "No position sensor"
  else if (sensor_bits =? 1)%Z then lit "Strain gauge sensor"
  else if (sensor_bits =? 2)%Z then lit "Capacitive sensor"
  else lit "Unknown".

(** [StatusRegister(value)]: [flags] is [StatusFlags(value)]. The [IntFlag]
    keeps every bit of [value] a member can test (a negative [value] is
    stored as a positive int with the same low bits), so [flags & flag] is
    [value & flag]; [flags] holds [value]. *)
Record StatusRegister := { flags : Z; reg_value : Z }.

Definition make_status_register (value : Z) : StatusRegister :=
  {| flags := value; reg_value := value |}.

(** [StatusRegister.has_flag]: [bool(self.flags & flag)]. *)
Definition has_flag (r : StatusRegister) (flag : StatusFlags) : bool :=
  negb (Z.land (flags r) (flag_value flag) =? 0)%Z.

(** [DeviceClient.get_status_register]. *)
Definition get_status_register : M StatusRegister :=
  n <- read_int_value (lit "stat") ;;
  ret (make_status_register n).

(** [DeviceClient.is_status_flag_set]. *)
Definition is_status_flag_set (flag : StatusFlags) : M bool :=
  status_reg <- get_status_register ;;
  ret (has_flag status_reg flag).

End Status.

(* ------------------------------------------------------------------ *)
(** ** Loop mode and setpoint: [set_pid_mode], [move_to_position] *)

Module Pid.
Import Client.

Inductive PidLoopMode := OPEN_LOOP | CLOSED_LOOP.

Definition pid_value (m : PidLoopMode) : Z :=
  match m with OPEN_LOOP => 0 | CLOSED_LOOP => 1 end%Z.

(** [PidLoopMode(n)]: the member with value [n], else [ValueError]. *)
Definition PidLoopMode_of_value (n : Z) : result PidLoopMode :=
  if (n =? 0)%Z then Ok OPEN_LOOP
  else if (n =? 1)%Z then Ok CLOSED_LOOP
  else Err ValueError.

Section Setpoint.
(** [f"{setpoint}"] of a float: Python's [repr] of it, left abstract. *)
Variable py_str_of_float : float -> str.

(** [DeviceClient.set_pid_mode]. *)
Definition set_pid_mode (mode : PidLoopMode) : M unit :=
  write (lit "cl," ++ py_str_of_int (pid_value mode)) ;;; ret tt.

(** [DeviceClient.get_pid_mode]. *)
Definition get_pid_mode : M PidLoopMode :=
  n <- read_int_value (lit "cl") ;;
  lift (PidLoopMode_of_value n).

(** [DeviceClient.set_setpoint]. *)
Definition set_setpoint (setpoint : float) : M unit :=
  write (lit "set," ++ py_str_of_float setpoint) ;;; ret tt.

(** [DeviceClient.move_to_position] and [move_to_voltage]. *)
Definition move_to_position (position : float) : M unit :=
  set_pid_mode CLOSED_LOOP ;;;
  set_setpoint position.

Definition move_to_voltage (voltage : float) : M unit :=
  set_pid_mode OPEN_LOOP ;;;
  set_setpoint voltage.

End Setpoint.

End Pid.

(* ------------------------------------------------------------------ *)
(** ** Data recorder: sources, start modes and reading the buffers *)

Module RecorderData.
Import Client Recorder.
Import Waveform (mapM).

Inductive DataRecorderSource :=
| PIEZO_POSITION
| SETPOINT
| PIEZO_VOLTAGE
| POSITION_ERROR
| ABS_POSITION_ERROR
| PIEZO_CURRENT_1
| PIEZO_CURRENT_2.

Definition source_value (s : DataRecorderSource) : Z :=
  match s with
  | PIEZO_POSITION => 0
  | SETPOINT => 1
  | PIEZO_VOLTAGE => 2
  | POSITION_ERROR => 3
  | ABS_POSITION_ERROR => 4
  | PIEZO_CURRENT_1 => 6
  | PIEZO_CURRENT_2 => 7
  end%Z.

(** The members in definition order, as [for item in cls] visits them. *)
Definition source_members : list DataRecorderSource :=
  [PIEZO_POSITION; SETPOINT; PIEZO_VOLTAGE; POSITION_ERROR; ABS_POSITION_ERROR;
   PIEZO_CURRENT_1; PIEZO_CURRENT_2].

(** [DataRecorderSource.get_source]. *)
Definition get_source (value : Z) : result DataRecorderSource :=
  match find (fun item => (source_value item =? value)%Z) source_members with
  | Some item => Ok item
  | None => Err ValueError
  end.

(** [DataRecorderSource(value)]: the enum's lookup by value. *)
Definition DataRecorderSource_of_value (value : Z) : result DataRecorderSource :=
  if (value =? 0)%Z then Ok PIEZO_POSITION
  else if (value =? 1)%Z then Ok SETPOINT
  else if (value =? 2)%Z then Ok PIEZO_VOLTAGE
  else if (value =? 3)%Z then Ok POSITION_ERROR
  else if (value =? 4)%Z then Ok ABS_POSITION_ERROR
  else if (value =? 6)%Z then Ok PIEZO_CURRENT_1
  else if (value =? 7)%Z then Ok PIEZO_CURRENT_2
  else Err ValueError.

Inductive RecorderAutoStartMode :=
| OFF
| START_ON_SET_COMMAND
| START_ON_GRUN_COMMAND.

Definition mode_value (m : RecorderAutoStartMode) : Z :=
  match m with
  | OFF => 0
  | START_ON_SET_COMMAND => 1
  | START_ON_GRUN_COMMAND => 2
  end%Z.

Definition mode_members : list RecorderAutoStartMode :=
  [OFF; START_ON_SET_COMMAND; START_ON_GRUN_COMMAND].

(** [RecorderAutoStartMode.get_mode]. *)
Definition get_mode (value : Z) : result RecorderAutoStartMode :=
  match find (fun item => (mode_value item =? value)%Z) mode_members with
  | Some item => Ok item
  | None => Err ValueError
  end.

(** [str(source)]: [DataRecorderSource.__str__], as UTF-8 text (the
    micro sign of the source is the Greek letter mu, bytes CE BC). *)
Definition greek_mu : string :=
  String (ascii_of_nat 206) (String (ascii_of_nat 188) EmptyString).

Definition source_str (s : DataRecorderSource) : string :=
  match s with
  | PIEZO_POSITION =>
      String.append "Piezo Position ("%string (String.append greek_mu "m or mrad)"%string)
  | SETPOINT =>
      String.append "Setpoint ("%string (String.append greek_mu "m or mrad)"%string)
  | PIEZO_VOLTAGE => "Piezo Voltage (V)"%string
  | POSITION_ERROR => "Position Error"%string
  | ABS_POSITION_ERROR => "Absolute Position Error"%string
  | PIEZO_CURRENT_1 => "Piezo Current 1 (A)"%string
  | PIEZO_CURRENT_2 => "Piezo Current 2 (A)"%string
  end.

(** [ChannelRecordingData(source, data)]. *)
Record ChannelRecordingData := { source : string; data : list float }.

(** [BUFFER_READ_TIMEOUT_SECS = 6], in ms. *)
Definition BUFFER_READ_TIMEOUT_MS : Z := 6000.

Section Channels.
(** [float(num)] of a [str], left abstract. *)
Variable py_float_of_str : str -> result float.

(** [DataRecorder.read_recorded_data_of_channel]. *)
Definition read_recorded_data_of_channel (channel : Z) : M ChannelRecordingData :=
  n <- read_int_value (lit "recsrc," ++ py_str_of_int channel) ;;
  recsrc <- lift (DataRecorderSource_of_value n) ;;
  number_strings <- read_values (lit "recoutf," ++ py_str_of_int channel)
                                BUFFER_READ_TIMEOUT_MS ;;
  numbers <- lift (mapM py_float_of_str number_strings) ;;
  ret {| source := source_str recsrc; data := numbers |}.

(** [DataRecorder.read_recorded_data]. *)
Definition read_recorded_data : M (list ChannelRecordingData) :=
  chan_data0 <- read_recorded_data_of_channel 0 ;;
  chan_data1 <- read_recorded_data_of_channel 1 ;;
  ret [chan_data0; chan_data1].

End Channels.

End RecorderData.

(* ------------------------------------------------------------------ *)
(** ** Waveform generator: buffer, sampling time and loop settings *)

Module WaveformIO.
Import Client Waveform.

(** Python [round(x)] for a float: the nearest int, ties to even;
    [OverflowError] for an infinity, [ValueError] for a NaN. *)
Definition py_round (x : float) : result Z :=
  match Prim2SF x with
  | S754_zero _ => Ok 0%Z
  | S754_infinity _ => Err OverflowError
  | S754_nan => Err ValueError
  | S754_finite s m e =>
      let a :=
        if (0 <=? e)%Z then (Zpos m * 2 ^ e)%Z
        else
          let d := (2 ^ (- e))%Z in
          let q := (Zpos m / d)%Z in
          let r2 := (2 * (Zpos m mod d))%Z in
          if (r2 <? d)%Z then q
          else if (d <? r2)%Z then (q + 1)%Z
          else if Z.even q then q else (q + 1)%Z in
      Ok (if s then (- a)%Z else a)
  end.

(** An int or a float argument: [x / 50] is [int / int] or [float / int]. *)
Inductive PyNum := NInt (z : Z) | NFloat (f : float).

Definition py_div_int (x : PyNum) (n : Z) : result float :=
  match x with
  | NInt z => py_int_truediv z n
  | NFloat f => py_fdiv_int f n
  end.

(** [set_output_sampling_time]: [round(sampling_time / 50) * 50], the
    factor [rounded // 50] clamped to [1..65535] is sent and the rounded
    time returned. *)
Definition set_output_sampling_time (sampling_time : PyNum) : M Z :=
  q <- lift (py_div_int sampling_time 50) ;;
  k <- lift (py_round q) ;;
  let rounded_sampling_time := (k * 50)%Z in
  let factor := (rounded_sampling_time / 50)%Z in
  let factor := Z.max 1 (Z.min factor 65535) in
  write (lit "gtarb," ++ py_str_of_int factor) ;;;
  ret rounded_sampling_time.

(** [set_loop_start_index], [set_loop_end_index], [set_start_index],
    [set_cycles] and [configure_waveform_loop]. *)
Definition set_loop_start_index (start_index : Z) : M unit :=
  write (lit "gsarb," ++ py_str_of_int start_index) ;;; ret tt.

Definition set_loop_end_index (end_index : Z) : M unit :=
  write (lit "gearb," ++ py_str_of_int end_index) ;;; ret tt.

Definition set_start_index (index : Z) : M unit :=
  write (lit "goarb," ++ py_str_of_int index) ;;; ret tt.

Definition set_cycles (cycles : Z) : M unit :=
  write (lit "gcarb," ++ py_str_of_int cycles) ;;; ret tt.

Definition configure_waveform_loop (start_index loop_start_index loop_end_index : Z) : M unit :=
  set_start_index start_index ;;;
  set_loop_start_index loop_start_index ;;;
  set_loop_end_index loop_end_index.

(** The attributes of a [WaveformData] instance: the two set by
    [TimeSeries.__init__], the properties [values], [sample_time_ms] and
    [sample_times_ms] and the method [generate_sample_times_ms] of
    [TimeSeries], the properties [sample_factor] and [cycle_time_ms] of
    [WaveformData]. Any other name raises [AttributeError]. *)
Inductive PyAttr :=
| AttrList (l : list float)
| AttrFloat (x : float)
| AttrOther.

Definition waveform_getattr (w : WaveformData) (name : str) : result PyAttr :=
  if str_eqb name (lit "values") || str_eqb name (lit "_values")
  then Ok (AttrList (values w))
  else if str_eqb name (lit "sample_time_ms") || str_eqb name (lit "_sample_time_ms")
  then Ok (AttrFloat (sample_time_ms w))
  else if existsb (str_eqb name)
            [lit "sample_times_ms"; lit "generate_sample_times_ms";
             lit "sample_factor"; lit "cycle_time_ms"]
  then Ok AttrOther
  else Err AttributeError.

(** C's [fmod]: the exact remainder of [x / y] with the sign of [x]. *)
Definition c_fmod (x y : float) : float :=
  match Prim2SF x, Prim2SF y with
  | S754_nan, _ | _, S754_nan => nan
  | S754_infinity _, _ => nan
  | _, S754_zero _ => nan
  | S754_zero _, _ => x
  | S754_finite _ _ _, S754_infinity _ => x
  | S754_finite sx mx ex, S754_finite _ my ey =>
      let e := Z.min ex ey in
      let r := ((Zpos mx * 2 ^ (ex - e)) mod (Zpos my * 2 ^ (ey - e)))%Z in
      if (r =? 0)%Z then (if sx then (-0)%float else 0%float)
      else SF2Prim (binary_normalize prec emax (if sx then (- r)%Z else r) e sx)
  end.

(** C's [floor] on a double. *)
Definition c_floor (x : float) : float :=
  match Prim2SF x with
  | S754_finite s m e =>
      if (0 <=? e)%Z then x
      else
        let d := (2 ^ (- e))%Z in
        let q := (Zpos m / d)%Z in
        let n := if s then (if (Zpos m mod d =? 0)%Z then (- q)%Z else (- q - 1)%Z)
                 else q in
        if (n =? 0)%Z then 0%float
        else SF2Prim (binary_normalize prec emax n 0 false)
  | _ => x
  end.

(** The sign bit of a float that is not a NaN. *)
Definition sign_bit (x : float) : bool :=
  match Prim2SF x with
  | S754_zero s | S754_infinity s | S754_finite s _ _ => s
  | S754_nan => false
  end.

(** Python [vx // wx] on floats ([float_floor_div] and [_float_div_mod] of
    CPython): [fmod], the quotient [(vx - mod) / wx] corrected by one when
    the remainder's sign differs from [wx]'s, then snapped to an integral
    value. When [div] is zero, [vx / wx] is not a NaN ([vx] is finite and
    [wx] a nonzero number), so [sign_bit] gives [copysign]'s sign. *)
Definition py_float_floordiv (vx wx : float) : result float :=
  if (wx =? 0)%float then Err ZeroDivisionError
  else
    let mod0 := c_fmod vx wx in
    let div0 := ((vx - mod0) / wx)%float in
    let div := if negb (mod0 =? 0)%float && xorb (wx <? 0)%float (mod0 <? 0)%float
               then (div0 - 1)%float else div0 in
    if negb (div =? 0)%float then
      let floordiv := c_floor div in
      Ok (if (0.5 <? div - floordiv)%float then (floordiv + 1)%float else floordiv)
    else Ok (if sign_bit (vx / wx)%float then (-0)%float else 0%float).

(** The property [WaveformData.sample_factor]:
    [(self.sample_time_ms * 1000) // 50]. *)
Definition waveform_sample_factor (w : WaveformData) : result float :=
  let! thousand := py_float_of_int 1000 in
  let! fifty := py_float_of_int NV200_BASE_SAMPLE_TIME_US in
  py_float_floordiv (sample_time_ms w * thousand)%float fifty.

Section Buffer.
(** [f"{value}"] of a float: Python's [repr] of it, left abstract. *)
Variable py_str_of_float : float -> str.

(** [set_waveform_value]. *)
Definition set_waveform_value (index : Z) (value : float) : M unit :=
  if (0 <=? index)%Z && (index <? NV200_WAVEFORM_BUFFER_SIZE)%Z
  then write (lit "gparb," ++ py_str_of_int index ++ lit "," ++ py_str_of_float value) ;;;
       ret tt
  else raise ValueError.

(** The loop [for index, value in enumerate(buffer)], from [index]. *)
Fixpoint set_values_from (index : Z) (buffer : list float) : M unit :=
  match buffer with
  | [] => ret tt
  | value :: rest => set_waveform_value index value ;;; set_values_from (index + 1) rest
  end.

(** [set_waveform_buffer]. *)
Definition set_waveform_buffer (buffer : list float) : M unit :=
  if (NV200_WAVEFORM_BUFFER_SIZE <? Z.of_nat (List.length buffer))%Z
  then raise ValueError
  else set_values_from 0 buffer.

(** [set_waveform]; assigning [self._waveform] changes nothing on the
    link. [WaveformData] has neither [y_values] nor [sample_time_us], so
    [waveform_getattr] raises [AttributeError] at the first access and the
    [TypeError] branches (an attribute of another kind) are never taken. *)
Definition set_waveform (waveform : WaveformData) (adjust_loop : bool) : M unit :=
  y_values <- lift (waveform_getattr waveform (lit "y_values")) ;;
  match y_values with
  | AttrList ys => set_waveform_buffer ys
  | _ => raise TypeError
  end ;;;
  sample_time_us <- lift (waveform_getattr waveform (lit "sample_time_us")) ;;
  match sample_time_us with
  | AttrFloat st => set_output_sampling_time (NFloat st) ;;; ret tt
  | _ => raise TypeError
  end ;;;
  if negb adjust_loop then ret tt
  else
    y_values' <- lift (waveform_getattr waveform (lit "y_values")) ;;
    match y_values' with
    | AttrList ys => configure_waveform_loop 0 0 (Z.of_nat (List.length ys) - 1)
    | _ => raise TypeError
    end.

End Buffer.

End WaveformIO.

(* ------------------------------------------------------------------ *)
(** ** Lantronix lookup by MAC and the parallel scan *)

Module LantronixLookup.
Import Lantronix.
Import Waveform (str_eqb).

(** [find_device_by_mac]: [dev['MAC'] == target_mac] is [str] equality. *)
Fixpoint find_device_by_mac (device_list : list LantronixDevice) (target_mac : str)
    : option str :=
  match device_list with
  | [] => None
  | dev :: rest =>
      if str_eqb (MAC dev) target_mac then Some (IP dev)
      else find_device_by_mac rest target_mac
  end.

Section Lookup.
Variable send_udp_broadcast : str -> result (list Datagram).

(** [discover_lantronix_device] over the active interfaces [ifaces]. *)
Definition discover_lantronix_device (ifaces : list (str * str)) (target_mac : str)
    : result (option str) :=
  let! devices := fst (discover_lantronix_devices send_udp_broadcast ifaces) in
  Ok (find_device_by_mac devices target_mac).

End Lookup.

End LantronixLookup.

(* ================================================================== *)
(** * Theorems *)

(* ------------------------------------------------------------------ *)
(** ** Signs of IEEE-754 results *)

Module FloatSign.

Lemma Prim2SF_zero : Prim2SF 0%float = S754_zero false.
Proof. vm_compute. reflexivity. Qed.

Lemma shr_1_nonneg r : (0 <= shr_m r)%Z -> (0 <= shr_m (shr_1 r))%Z.
Proof.
  destruct r as [m rr ss]; simpl.
  destruct m as [|p|p]; simpl; intros H; try lia.
  destruct p; simpl; lia.
Qed.

Lemma iter_shr_1_nonneg p : forall r,
  (0 <= shr_m r)%Z -> (0 <= shr_m (iter_pos shr_1 p r))%Z.
Proof.
  induction p as [p IH|p IH|]; intros r H; simpl.
  - apply IH, IH, shr_1_nonneg, H.
  - apply IH, IH, H.
  - apply shr_1_nonneg, H.
Qed.

Lemma shr_fexp_nonneg m e l :
  (0 <= m)%Z -> (0 <= shr_m (fst (shr_fexp prec emax m e l)))%Z.
Proof.
  intros Hm. unfold shr_fexp, shr.
  destruct (_ - e)%Z; simpl;
    try (destruct l as [|[]]; simpl; exact Hm).
  apply iter_shr_1_nonneg. destruct l as [|[]]; simpl; exact Hm.
Qed.

Lemma round_nearest_even_nonneg m l :
  (0 <= m)%Z -> (0 <= round_nearest_even m l)%Z.
Proof.
  intros H. destruct l as [|[]]; simpl; try lia.
  destruct (Z.even m); lia.
Qed.

(** Rounding a nonnegative mantissa with a positive sign never gives a
    negative number nor NaN. *)
Lemma binary_round_aux_nonneg m e l :
  (0 <= m)%Z ->
  SFleb (S754_zero false) (binary_round_aux prec emax false m e l) = true.
Proof.
  intros Hm. unfold binary_round_aux.
  pose proof (shr_fexp_nonneg m e l Hm) as H1.
  destruct (shr_fexp prec emax m e l) as [mrs' e'] eqn:E1. simpl in H1.
  pose proof (shr_fexp_nonneg (round_nearest_even (shr_m mrs') (loc_of_shr_record mrs'))
                e' loc_Exact (round_nearest_even_nonneg _ _ H1)) as H2.
  destruct (shr_fexp prec emax _ e' loc_Exact) as [mrs'' e''] eqn:E2. simpl in H2.
  destruct (shr_m mrs'') as [|p|p]; [reflexivity| |lia].
  destruct (e'' <=? emax - prec)%Z; reflexivity.
Qed.

(** [x / y] is [>= 0] when [x >= 0] and [y] is a positive finite float. *)
Lemma div_nonneg x y my ey :
  (0 <=? x)%float = true ->
  Prim2SF y = S754_finite false my ey ->
  (0 <=? x / y)%float = true.
Proof.
  rewrite !leb_spec, div_spec, Prim2SF_zero. intros Hx Hy.
  rewrite Hy. unfold SF64div.
  destruct (Prim2SF x) as [sx|sx| |sx mx ex]; simpl in Hx |- *.
  - reflexivity.
  - destruct sx; [discriminate|reflexivity].
  - discriminate.
  - destruct sx; [discriminate|].
    unfold SFdiv_core_binary.
    set (m' := match _ with Zpos _ => Z.shiftl (Zpos mx) _ | Z0 => Zpos mx | Zneg _ => Z0 end).
    assert (Hm' : (0 <= m')%Z).
    { subst m'. destruct (_ - _ - _)%Z; try lia. apply Z.shiftl_nonneg. lia. }
    destruct (Z.div_eucl m' (Zpos my)) as [q r] eqn:E.
    assert (Hq : q = (m' / Zpos my)%Z) by (unfold Z.div; rewrite E; reflexivity).
    apply binary_round_aux_nonneg. rewrite Hq. apply Z.div_pos; lia.
Qed.

(** [int(x) >= 0] for a float [x >= 0]. *)
Lemma py_int_of_float_nonneg x n :
  (0 <=? x)%float = true -> py_int_of_float x = Ok n -> (0 <= n)%Z.
Proof.
  rewrite leb_spec, Prim2SF_zero. unfold py_int_of_float.
  destruct (Prim2SF x) as [sx|sx| |sx mx ex]; intros Hx Hn; simpl in Hx;
    try discriminate.
  - injection Hn as <-. lia.
  - destruct sx; [discriminate|].
    assert (Ha : (0 <= if (0 <=? ex)%Z then (Zpos mx * 2 ^ ex)%Z
                       else (Zpos mx / 2 ^ (- ex))%Z)%Z).
    { destruct (0 <=? ex)%Z eqn:Hex.
      - apply Z.mul_nonneg_nonneg; [lia|]. apply Z.pow_nonneg. lia.
      - apply Z.leb_gt in Hex.
        apply Z.div_pos; [lia|]. apply Z.pow_pos_nonneg; lia. }
    injection Hn as <-. exact Ha.
Qed.

End FloatSign.

(* ------------------------------------------------------------------ *)
(** ** Rounding errors of binary64 operations

    [pval] reads a nonnegative float as a real; [u = 2^-52] and
    [eta = 2^-1074] bound the relative and absolute error of one rounding
    to nearest, even. *)

Module FloatError.
Local Open Scope Z_scope.

Lemma digits2_pos_size p : digits2_pos p = Pos.size p.
Proof. induction p; simpl; congruence. Qed.

Lemma Zdigits2_log2 m : 0 < m -> Zdigits2 m = Z.log2 m + 1.
Proof.
  intros Hm. destruct m as [|p|p]; try lia. simpl.
  rewrite digits2_pos_size.
  destruct p; simpl; rewrite ?Pos.add_1_r; lia.
Qed.

Lemma dig_bounds m : 0 < m -> 2 ^ (Zdigits2 m - 1) <= m < 2 ^ Zdigits2 m.
Proof.
  intros Hm. rewrite Zdigits2_log2 by lia.
  replace (Z.log2 m + 1 - 1) with (Z.log2 m) by lia.
  rewrite Z.add_1_r. apply Z.log2_spec. exact Hm.
Qed.

Lemma dig_unique m k : 2 ^ (k - 1) <= m < 2 ^ k -> 0 < k -> Zdigits2 m = k.
Proof.
  intros [H1 H2] Hk. assert (0 < m) by (pose proof (Z.pow_pos_nonneg 2 (k-1)); lia).
  rewrite Zdigits2_log2 by lia.
  rewrite (Z.log2_unique m (k - 1)); try lia.
  replace (Z.succ (k - 1)) with k by lia. split; lia.
Qed.

Lemma dig_nonneg m : 0 <= Zdigits2 m.
Proof. destruct m; simpl; lia. Qed.

Lemma dig_pos m : 0 < m -> 0 < Zdigits2 m.
Proof. intros. rewrite Zdigits2_log2 by lia. pose proof (Z.log2_nonneg m). lia. Qed.


Lemma shr_1_div r : 0 <= shr_m r -> shr_m (shr_1 r) = shr_m r / 2.
Proof.
  destruct r as [m rr ss]; simpl. intros Hm.
  destruct m as [|p|p]; [reflexivity| |lia].
  destruct p as [p|p|]; simpl.
  - rewrite Pos2Z.inj_xI. rewrite Z.mul_comm, Z.div_add_l by lia. reflexivity.
  - rewrite Pos2Z.inj_xO. rewrite Z.mul_comm, Z.div_mul by lia. reflexivity.
  - reflexivity.
Qed.

Lemma iter_pos_shr p : forall r, 0 <= shr_m r ->
  shr_m (iter_pos shr_1 p r) = shr_m r / 2 ^ Zpos p.
Proof.
  induction p as [p IH|p IH|]; intros r Hr; cbn [iter_pos].
  - assert (H1 := FloatSign.shr_1_nonneg r Hr).
    assert (H2 := FloatSign.iter_shr_1_nonneg p _ H1).
    rewrite IH, IH, shr_1_div by assumption.
    rewrite !Z.div_div by (try apply Z.pow_pos_nonneg; lia).
    f_equal. rewrite Pos2Z.inj_xI.
    replace (2 * Z.pos p + 1) with (1 + (Z.pos p + Z.pos p)) by lia.
    rewrite !Z.pow_add_r by lia. ring.
  - assert (H2 := FloatSign.iter_shr_1_nonneg p _ Hr).
    rewrite IH, IH by assumption.
    rewrite !Z.div_div by (try apply Z.pow_pos_nonneg; lia).
    f_equal. rewrite (Pos2Z.inj_xO p).
    replace (2 * Z.pos p) with (Z.pos p + Z.pos p) by lia.
    rewrite !Z.pow_add_r by lia. ring.
  - apply shr_1_div, Hr.
Qed.

Lemma fexp_eq e : SpecFloat.fexp prec emax e = Z.max (e - 53) (-1074).
Proof. reflexivity. Qed.

Lemma loc_of_record m l : loc_of_shr_record (shr_record_of_loc m l) = l.
Proof. destruct l as [|[]]; reflexivity. Qed.

Lemma record_m m l : shr_m (shr_record_of_loc m l) = m.
Proof. destruct l as [|[]]; reflexivity. Qed.

(** The two outcomes of [shr_fexp]: nothing to shift, or a shift to the
    exponent [fexp (digits + e)] that divides the mantissa. *)
Lemma shr_fexp_cases m e l :
  0 <= m ->
  let '(r, e') := shr_fexp prec emax m e l in
  (e' = e /\ r = shr_record_of_loc m l /\ SpecFloat.fexp prec emax (Zdigits2 m + e) <= e) \/
  (e < e' /\ e' = SpecFloat.fexp prec emax (Zdigits2 m + e) /\ shr_m r = m / 2 ^ (e' - e)).
Proof.
  intros Hm. unfold shr_fexp, shr.
  destruct (SpecFloat.fexp prec emax (Zdigits2 m + e) - e) as [|p|p] eqn:E.
  - left. repeat split; lia.
  - right. repeat split; try lia.
    rewrite iter_pos_shr by (rewrite record_m; exact Hm).
    rewrite record_m. f_equal. f_equal. lia.
  - left. repeat split; lia.
Qed.

Lemma location_eq_dec (a b : location) : {a = b} + {a <> b}.
Proof. decide equality. decide equality. Defined.

Lemma round_nearest_even_cases m l :
  round_nearest_even m l = m \/ (round_nearest_even m l = m + 1 /\ l <> loc_Exact).
Proof.
  destruct l as [|[]]; simpl; auto.
  - destruct (Z.even m); [left; reflexivity|right; split; [reflexivity|discriminate]].
  - right. split; [reflexivity|discriminate].
Qed.


(** Values of [m * 2^e] as real numbers. *)
Definition bpow (e : Z) : R := powerRZ 2 e.
Definition u : R := bpow (-52).
Definition eta : R := bpow (-1074).

Local Open Scope R_scope.

Lemma bpow_plus a b : bpow (a + b) = bpow a * bpow b.
Proof. unfold bpow. apply powerRZ_add. lra. Qed.

Lemma bpow_pos e : 0 < bpow e.
Proof. unfold bpow. apply powerRZ_lt. lra. Qed.

Lemma bpow_IZR n : (0 <= n)%Z -> bpow n = IZR (2 ^ n).
Proof.
  intros Hn. unfold bpow. destruct n as [|p|p]; try lia.
  - reflexivity.
  - simpl. rewrite pow_IZR. f_equal. rewrite positive_nat_Z. reflexivity.
Qed.

Lemma bpow_le a b : (a <= b)%Z -> bpow a <= bpow b.
Proof.
  intros H. replace b with (a + (b - a))%Z by lia. rewrite bpow_plus.
  rewrite (bpow_IZR (b - a)) by lia.
  pose proof (bpow_pos a).
  assert (1 <= IZR (2 ^ (b - a))).
  { apply IZR_le. pose proof (Z.pow_pos_nonneg 2 (b - a)). lia. }
  nra.
Qed.

Lemma u_pos : 0 < u.
Proof. apply bpow_pos. Qed.
Lemma eta_pos : 0 < eta.
Proof. apply bpow_pos. Qed.

Lemma u_small : u <= / 4.
Proof.
  unfold u. replace (-52)%Z with (-2 + -50)%Z by lia. rewrite bpow_plus.
  assert (bpow (-2) = / 4) as ->.
  { unfold bpow. simpl. lra. }
  assert (bpow (-50) <= 1).
  { replace 1 with (bpow 0) by reflexivity. apply bpow_le. lia. }
  pose proof (bpow_pos (-50)). lra.
Qed.

Lemma IZR_scale m e n : (0 <= n)%Z ->
  IZR m * bpow (e + n) = IZR (m * 2 ^ n) * bpow e.
Proof.
  intros Hn. rewrite bpow_plus, mult_IZR, (bpow_IZR n Hn). ring.
Qed.

(** [shr_fexp] truncates [m * 2^e] to a multiple of [2^e']; a real shift
    moves to an exponent whose unit is small with respect to the value. *)
Lemma shr_fexp_value m e l : (0 <= m)%Z ->
  let '(r, e') := shr_fexp prec emax m e l in
  (0 <= shr_m r)%Z /\ (e <= e')%Z /\
  IZR (shr_m r) * bpow e' <= IZR m * bpow e /\
  IZR (m + 1) * bpow e <= IZR (shr_m r + 1) * bpow e' /\
  ((e' = e /\ r = shr_record_of_loc m l) \/
   (bpow e' <= IZR m * bpow e * u + eta /\
    e' = SpecFloat.fexp prec emax (Zdigits2 m + e))).
Proof.
  intros Hm. pose proof (shr_fexp_cases m e l Hm) as Hc.
  destruct (shr_fexp prec emax m e l) as [r e'].
  destruct Hc as [[-> [-> _]] | [Hlt [He' Hr]]].
  - rewrite record_m. split; [lia|]. split; [lia|].
    split; [lra|]. split; [lra|]. left; split; reflexivity.
  - set (n := (e' - e)%Z) in *.
    assert (Hn : (0 < n)%Z) by lia.
    assert (Hp : (0 < 2 ^ n)%Z) by (apply Z.pow_pos_nonneg; lia).
    assert (He : e' = (e + n)%Z) by lia.
    assert (Hd1 : (2 ^ n * (m / 2 ^ n) <= m)%Z) by (apply Z.mul_div_le; lia).
    assert (Hd2 : (m < 2 ^ n * (m / 2 ^ n + 1))%Z).
    { pose proof (Z.mul_succ_div_gt m (2 ^ n) Hp). lia. }
    rewrite Hr. split; [apply Z.div_pos; lia|]. split; [lia|].
    rewrite He, !IZR_scale by lia.
    pose proof (bpow_pos e).
    split; [apply Rmult_le_compat_r; [lra|apply IZR_le; lia]|].
    split; [apply Rmult_le_compat_r; [lra|apply IZR_le; lia]|].
    right. split; [|lia].
    rewrite <- He, He'. rewrite fexp_eq.
    destruct (Z.max_spec (Zdigits2 m + e - 53) (-1074)) as [[_ Hmax]|[_ Hmax]];
      rewrite Hmax.
    + pose proof u_pos. pose proof (IZR_le 0 m Hm).
      unfold eta. assert (0 <= IZR m * bpow e * u) by (apply Rmult_le_pos; [apply Rmult_le_pos|]; lra).
      lra.
    + assert (Hm0 : (0 < m)%Z).
      { destruct (Z.eq_dec m 0) as [E|E]; [|lia]. subst m.
        rewrite fexp_eq in He'. simpl Zdigits2 in He', Hmax. lia. }
      pose proof (dig_bounds m Hm0) as [Hb _].
      replace (Zdigits2 m + e - 53)%Z with ((Zdigits2 m - 1) + e + (-52))%Z by lia.
      rewrite !bpow_plus. unfold u.
      rewrite (bpow_IZR (Zdigits2 m - 1)) by (pose proof (dig_pos m Hm0); lia).
      pose proof (bpow_pos (-52)). pose proof eta_pos.
      assert (IZR (2 ^ (Zdigits2 m - 1)) <= IZR m) by (apply IZR_le; lia).
      assert (IZR (2 ^ (Zdigits2 m - 1)) * bpow e <= IZR m * bpow e)
        by (apply Rmult_le_compat_r; lra).
      assert (IZR (2 ^ (Zdigits2 m - 1)) * bpow e * bpow (-52) <= IZR m * bpow e * bpow (-52))
        by (apply Rmult_le_compat_r; lra).
      lra.
Qed.


(** The real value of a nonnegative float. *)
Definition pval (x : spec_float) : R :=
  match x with
  | S754_finite false m e => IZR (Zpos m) * bpow e
  | _ => 0
  end.

(** [(mx, ex, lx)] describes the real [X]: [X] lies in
    [[mx * 2^ex, (mx + 1) * 2^ex)], equals its lower end when [lx] is exact,
    and otherwise [2^ex] is small with respect to [X]. *)
Definition InBetween (X : R) (mx ex : Z) (lx : location) : Prop :=
  (0 <= mx)%Z /\ IZR mx * bpow ex <= X /\ X < IZR (mx + 1) * bpow ex /\
  (lx = loc_Exact -> X = IZR mx * bpow ex) /\
  (lx <> loc_Exact -> bpow ex <= X * u + eta).

Lemma round_stage1 X mx ex lx : InBetween X mx ex lx ->
  let '(r1, e1) := shr_fexp prec emax mx ex lx in
  let mr := round_nearest_even (shr_m r1) (loc_of_shr_record r1) in
  (0 <= mr)%Z /\ X - (X * u + eta) <= IZR mr * bpow e1 <= X + (X * u + eta).
Proof.
  intros [Hm [HX1 [HX2 [HXe HXi]]]].
  pose proof (shr_fexp_value mx ex lx Hm) as V.
  destruct (shr_fexp prec emax mx ex lx) as [r1 e1].
  destruct V as [Hm1 [Hee [V1 [V2 V3]]]].
  pose proof (bpow_pos e1). pose proof (bpow_pos ex). pose proof u_pos. pose proof eta_pos.
  assert (HX0 : 0 <= X).
  { pose proof (IZR_le 0 mx Hm). assert (0 <= IZR mx * bpow ex) by (apply Rmult_le_pos; lra). lra. }
  rewrite plus_IZR in HX2. rewrite plus_IZR, plus_IZR in V2.
  rewrite Rmult_plus_distr_r, Rmult_1_l in HX2.
  rewrite Rmult_plus_distr_r, Rmult_1_l, Rmult_plus_distr_r, Rmult_1_l in V2.
  assert (Hsmall : loc_of_shr_record r1 <> loc_Exact -> bpow e1 <= X * u + eta).
  { intros Hl. destruct V3 as [[-> ->] | [Hb _]].
    - rewrite loc_of_record in Hl. apply HXi, Hl.
    - assert (IZR mx * bpow ex * u <= X * u) by (apply Rmult_le_compat_r; lra). lra. }
  assert (Hexact : loc_of_shr_record r1 = loc_Exact ->
                   X = IZR (shr_m r1) * bpow e1 \/ bpow e1 <= X * u + eta).
  { intros Hl. destruct V3 as [[-> ->] | [Hb _]].
    - rewrite loc_of_record in Hl. rewrite record_m. left. apply HXe, Hl.
    - right. assert (IZR mx * bpow ex * u <= X * u) by (apply Rmult_le_compat_r; lra). lra. }
  destruct (round_nearest_even_cases (shr_m r1) (loc_of_shr_record r1)) as [Hr | [Hr Hl]];
    rewrite Hr.
  - split; [exact Hm1|].
    assert (0 <= X * u) by (apply Rmult_le_pos; lra).
    destruct (location_eq_dec (loc_of_shr_record r1) loc_Exact) as [Hl|Hl].
    + destruct (Hexact Hl) as [E|E]; [rewrite <- E; split; lra|].
      split; lra.
    + specialize (Hsmall Hl). split; lra.
  - split; [lia|]. specialize (Hsmall Hl).
    assert (0 <= X * u) by (apply Rmult_le_pos; lra).
    rewrite plus_IZR, Rmult_plus_distr_r, Rmult_1_l. split; lra.
Qed.


(** Rounding a nonnegative [(mx, ex, lx)] that describes [X]: the result
    is [+0], a positive finite float or [+inf], and when it is not [+inf]
    its value is within a relative [2u] and an absolute [2 eta] of [X]. *)
Lemma binary_round_aux_bounds X mx ex lx : InBetween X mx ex lx ->
  let z := binary_round_aux prec emax false mx ex lx in
  (z = S754_zero false \/ (exists m e, z = S754_finite false m e) \/
   z = S754_infinity false) /\
  (z <> S754_infinity false ->
   X * (1 - 2 * u) - 2 * eta <= pval z <= X * (1 + u) + eta).
Proof.
  intros HI. pose proof (round_stage1 X mx ex lx HI) as S1.
  assert (HX0 : 0 <= X).
  { destruct HI as [Hm [HX1 _]]. pose proof (IZR_le 0 mx Hm). pose proof (bpow_pos ex).
    assert (0 <= IZR mx * bpow ex) by (apply Rmult_le_pos; lra). lra. }
  unfold binary_round_aux.
  destruct (shr_fexp prec emax mx ex lx) as [r1 e1].
  set (mr := round_nearest_even (shr_m r1) (loc_of_shr_record r1)) in *.
  destruct S1 as [Hmr [L1 U1]].
  pose proof (shr_fexp_value mr e1 loc_Exact Hmr) as V.
  destruct (shr_fexp prec emax mr e1 loc_Exact) as [r2 e2].
  destruct V as [Hm2 [Hee [V1 [V2 V3]]]].
  pose proof (bpow_pos e1). pose proof (bpow_pos e2). pose proof u_pos. pose proof eta_pos.
  pose proof u_small.
  assert (HXu : 0 <= X * u) by (apply Rmult_le_pos; lra).
  assert (Hv : X * (1 - 2 * u) - 2 * eta <= IZR (shr_m r2) * bpow e2 <= X * (1 + u) + eta).
  { destruct V3 as [[-> ->] | [Hb _]].
    - rewrite record_m. split; lra.
    - rewrite !plus_IZR, !Rmult_plus_distr_r, !Rmult_1_l in V2.
      assert (Hmr0 : 0 <= IZR mr * bpow e1) by (apply Rmult_le_pos; [apply (IZR_le 0); lia|lra]).
      assert (IZR mr * bpow e1 * u <= (X + (X * u + eta)) * u)
        by (apply Rmult_le_compat_r; lra).
      assert (X * u * u >= 0) by (apply Rle_ge, Rmult_le_pos; lra).
      assert (eta * u >= 0) by (apply Rle_ge, Rmult_le_pos; lra).
      split; nra. }
  destruct (shr_m r2) as [|p|p] eqn:E2; [| |lia].
  - split; [left; reflexivity|]. intros _. simpl. simpl in Hv. rewrite Rmult_0_l in Hv. exact Hv.
  - destruct (e2 <=? emax - prec)%Z.
    + split; [right; left; eexists; eexists; reflexivity|]. intros _. exact Hv.
    + split; [right; right; reflexivity|]. intros H'. exfalso. apply H'. reflexivity.
Qed.

End FloatError.

Module FloatValid.
Import FloatError.
Local Open Scope Z_scope.

(** After the first shift, a normal result has 53 digits and a subnormal
    one fewer than 53. *)
Definition Canon (m e : Z) : Prop :=
  (e = -1074 /\ 0 <= m < 9007199254740992) \/
  (-1074 <= e /\ 4503599627370496 <= m <= 9007199254740992).

Lemma first_stage mx ex lx : 0 <= mx ->
  ex <= SpecFloat.fexp prec emax (Zdigits2 mx + ex) ->
  let '(r1, e1) := shr_fexp prec emax mx ex lx in
  e1 = SpecFloat.fexp prec emax (Zdigits2 mx + ex) /\ 0 <= e1 - ex /\
  shr_m r1 = mx / 2 ^ (e1 - ex).
Proof.
  intros Hm He. pose proof (shr_fexp_cases mx ex lx Hm) as Hc.
  destruct (shr_fexp prec emax mx ex lx) as [r1 e1].
  destruct Hc as [[-> [-> Hf]] | [Hlt [He' Hr]]].
  - rewrite record_m. replace (ex - ex) with 0 by lia.
    rewrite Z.pow_0_r, Z.div_1_r. repeat split; lia.
  - split; [lia|]. split; [lia|]. exact Hr.
Qed.

Lemma first_stage_canon mx ex lx : 0 <= mx ->
  ex <= SpecFloat.fexp prec emax (Zdigits2 mx + ex) ->
  let '(r1, e1) := shr_fexp prec emax mx ex lx in
  Canon (round_nearest_even (shr_m r1) (loc_of_shr_record r1)) e1.
Proof.
  intros Hm He. pose proof (first_stage mx ex lx Hm He) as F.
  destruct (shr_fexp prec emax mx ex lx) as [r1 e1].
  destruct F as [E1 [Hs Hr]].
  set (s := e1 - ex) in *.
  assert (Hp : 0 < 2 ^ s) by (apply Z.pow_pos_nonneg; lia).
  assert (HM : (e1 = -1074 /\ 0 <= shr_m r1 < 4503599627370496) \/
               (-1074 <= e1 /\ 4503599627370496 <= shr_m r1 < 9007199254740992)).
  { rewrite Hr. rewrite fexp_eq in E1.
    destruct (Z.max_spec (Zdigits2 mx + ex - 53) (-1074)) as [[Hlt Hmax]|[Hge Hmax]];
      rewrite Hmax in E1.
    - left. split; [exact E1|]. split; [apply Z.div_pos; lia|].
      apply Z.div_lt_upper_bound; [lia|].
      destruct (Z.eq_dec mx 0) as [->|Hne]; [lia|].
      pose proof (dig_bounds mx ltac:(lia)) as [_ Hb].
      assert (2 ^ Zdigits2 mx <= 2 ^ (s + 52)) by (apply Z.pow_le_mono_r; lia).
      rewrite Z.pow_add_r in H by lia. change (2 ^ 52) with 4503599627370496 in H. lia.
    - right. split; [lia|].
      assert (Hpos : 0 < mx).
      { destruct (Z.eq_dec mx 0) as [->|Hne]; [|lia]. simpl Zdigits2 in *. lia. }
      pose proof (dig_bounds mx Hpos) as [Hb1 Hb2].
      replace (Zdigits2 mx - 1) with (s + 52) in Hb1 by lia.
      replace (Zdigits2 mx) with (s + 53) in Hb2 by lia.
      rewrite Z.pow_add_r in Hb1, Hb2 by lia.
      change (2 ^ 52) with 4503599627370496 in Hb1.
      change (2 ^ 53) with 9007199254740992 in Hb2.
      split.
      + apply Z.div_le_lower_bound; lia.
      + apply Z.div_lt_upper_bound; lia. }
  unfold Canon.
  destruct (round_nearest_even_cases (shr_m r1) (loc_of_shr_record r1)) as [R|[R _]];
    rewrite R; lia.
Qed.

Lemma dig_le_53 m : 0 < m < 9007199254740992 -> Zdigits2 m <= 53.
Proof.
  intros H. rewrite Zdigits2_log2 by lia.
  assert (Z.log2 m < 53); [|lia].
  apply Z.log2_lt_pow2; [lia|]. change (2 ^ 53) with 9007199254740992. lia.
Qed.

Lemma dig_ge_53 m : 4503599627370496 <= m -> 53 <= Zdigits2 m.
Proof.
  intros H. rewrite Zdigits2_log2 by lia.
  assert (52 <= Z.log2 m); [|lia].
  apply Z.log2_le_pow2; [lia|]. change (2 ^ 52) with 4503599627370496. lia.
Qed.

Lemma second_stage mr e1 : Canon mr e1 ->
  let '(r2, e2) := shr_fexp prec emax mr e1 loc_Exact in
  0 < shr_m r2 -> SpecFloat.fexp prec emax (Zdigits2 (shr_m r2) + e2) = e2.
Proof.
  intros C.
  assert (Hm : 0 <= mr) by (destruct C; lia).
  pose proof (shr_fexp_cases mr e1 loc_Exact Hm) as Hc.
  destruct (shr_fexp prec emax mr e1 loc_Exact) as [r2 e2].
  destruct (Z.eq_dec mr 9007199254740992) as [->|Hne].
  - assert (He1 : -1074 <= e1) by (destruct C; lia).
    change (Zdigits2 9007199254740992) with 54 in Hc.
    rewrite !fexp_eq in Hc.
    destruct Hc as [[_ [_ Hf]] | [Hlt [He' Hr]]]; [lia|].
    intros _. rewrite Hr.
    replace (e2 - e1) with 1 by lia. change (9007199254740992 / 2 ^ 1) with 4503599627370496.
    change (Zdigits2 4503599627370496) with 53. rewrite fexp_eq. lia.
  - assert (Hf : SpecFloat.fexp prec emax (Zdigits2 mr + e1) = e1).
    { rewrite fexp_eq.
      destruct (Z.eq_dec mr 0) as [->|Hz].
      - destruct C; [|lia]. simpl Zdigits2. lia.
      - pose proof (dig_le_53 mr ltac:(destruct C; lia)).
        destruct C as [[-> _]|[He1 Hb]]; [lia|].
        pose proof (dig_ge_53 mr ltac:(lia)). lia. }
    destruct Hc as [[-> [-> _]] | [Hlt [He' Hr]]]; [|lia].
    rewrite record_m. intros _. exact Hf.
Qed.

(** The rounding of a mantissa and exponent that are already at or below
    the canonical exponent yields a valid binary64 datum. *)
Lemma binary_round_aux_valid sx mx ex lx : 0 <= mx ->
  ex <= SpecFloat.fexp prec emax (Zdigits2 mx + ex) ->
  SpecFloat.valid_binary prec emax (binary_round_aux prec emax sx mx ex lx) = true.
Proof.
  intros Hm He. pose proof (first_stage_canon mx ex lx Hm He) as C.
  unfold binary_round_aux.
  destruct (shr_fexp prec emax mx ex lx) as [r1 e1].
  pose proof (second_stage _ _ C) as S.
  destruct (shr_fexp prec emax _ e1 loc_Exact) as [r2 e2].
  destruct (shr_m r2) as [|p|p] eqn:E; try reflexivity.
  destruct (e2 <=? emax - prec) eqn:Eb; [|reflexivity].
  simpl. unfold bounded, canonical_mantissa. rewrite Eb, Bool.andb_true_r.
  apply Z.eqb_eq. apply S. lia.
Qed.

Lemma pos_iter_xO p d : Zpos (Pos.iter xO p d) = Zpos p * 2 ^ Zpos d.
Proof.
  induction d as [|d IH] using Pos.peano_ind.
  - simpl. lia.
  - rewrite Pos.iter_succ, Pos2Z.inj_xO, IH, Pos2Z.inj_succ, Z.pow_succ_r by lia. ring.
Qed.

Lemma dig_mul_pow m d : 0 < m -> 0 <= d -> Zdigits2 (m * 2 ^ d) = Zdigits2 m + d.
Proof.
  intros Hm Hd. pose proof (dig_bounds m Hm) as [H1 H2]. pose proof (dig_pos m Hm).
  apply dig_unique; [|lia].
  replace (Zdigits2 m + d - 1) with ((Zdigits2 m - 1) + d) by lia.
  rewrite !Z.pow_add_r by lia.
  assert (0 < 2 ^ d) by (apply Z.pow_pos_nonneg; lia).
  split; nia.
Qed.

(** [float(n)] for a positive int goes through an exact mantissa and
    exponent at or below the canonical exponent. *)
Lemma binary_normalize_int n : 0 < n ->
  exists mz ez, binary_normalize prec emax n 0 false =
    binary_round_aux prec emax false mz ez loc_Exact /\ 0 < mz /\
    ez <= SpecFloat.fexp prec emax (Zdigits2 mz + ez) /\
    ((ez = 0 /\ mz = n) \/ (ez < 0 /\ mz = n * 2 ^ (- ez))).
Proof.
  intros Hn. destruct n as [|p|p]; try lia. simpl binary_normalize.
  unfold binary_round, shl_align.
  change (Zpos (digits2_pos p)) with (Zdigits2 (Zpos p)).
  set (E := SpecFloat.fexp prec emax (Zdigits2 (Zpos p) + 0)).
  destruct (E - 0) as [|d|d] eqn:Ed.
  - exists (Zpos p), 0. split; [reflexivity|]. split; [lia|].
    split; [subst E; rewrite Z.add_0_r in *; lia|]. left; lia.
  - exists (Zpos p), 0. split; [reflexivity|]. split; [lia|].
    split; [subst E; rewrite Z.add_0_r in *; lia|]. left; lia.
  - exists (Zpos (Pos.iter xO p d)), E. split; [reflexivity|]. split; [lia|].
    rewrite pos_iter_xO. split.
    + rewrite dig_mul_pow by lia. subst E. rewrite Z.add_0_r in *.
      replace (Zdigits2 (Zpos p) + Zpos d + SpecFloat.fexp prec emax (Zdigits2 (Zpos p)))
        with (Zdigits2 (Zpos p)) by lia. lia.
    + right. split; [lia|]. f_equal. f_equal. lia.
Qed.

End FloatValid.

Module FloatDiv.
Import FloatError FloatValid.
Local Open Scope R_scope.

Lemma new_location_exact n r : new_location n r = loc_Exact -> r = 0%Z.
Proof.
  unfold new_location, new_location_even, new_location_odd.
  destruct (Z.even n), (Z.eqb_spec r 0); intros H; try discriminate; assumption.
Qed.

Lemma new_location_zero n : new_location n 0 = loc_Exact.
Proof. unfold new_location. destruct (Z.even n); reflexivity. Qed.

(** The quotient, exponent and location that the division kernel
    computes describe the exact real quotient. *)
Lemma div_core_inbetween mx ex my ey :
  let '(q, e', l) := SFdiv_core_binary prec emax (Zpos mx) ex (Zpos my) ey in
  InBetween (IZR (Zpos mx) * bpow ex / (IZR (Zpos my) * bpow ey)) q e' l.
Proof.
  unfold SFdiv_core_binary.
  set (d1 := Zdigits2 (Zpos mx)). set (d2 := Zdigits2 (Zpos my)).
  set (e' := Z.min (SpecFloat.fexp prec emax (d1 + ex - (d2 + ey))) (ex - ey)).
  set (s := (ex - ey - e')%Z).
  assert (Hs : (0 <= s)%Z) by (subst s e'; lia).
  assert (Hm' : match s with Zpos _ => Z.shiftl (Zpos mx) s | Z0 => Zpos mx
                | Zneg _ => 0%Z end = (Zpos mx * 2 ^ s)%Z).
  { destruct s eqn:Es; [simpl; lia | apply Z.shiftl_mul_pow2; lia | lia]. }
  rewrite Hm'.
  pose proof (Z_div_mod (Zpos mx * 2 ^ s) (Zpos my) ltac:(lia)) as Hdm.
  destruct (Z.div_eucl (Zpos mx * 2 ^ s) (Zpos my)) as [q r].
  destruct Hdm as [Heq Hr].
  assert (Hp2 : (0 < 2 ^ s)%Z) by (apply Z.pow_pos_nonneg; lia).
  assert (Hq : (0 <= q)%Z) by nia.
  pose proof (bpow_pos e'). pose proof (bpow_pos ey). pose proof (bpow_pos ex).
  assert (Hmy : 0 < IZR (Zpos my)) by (apply IZR_lt; lia).
  assert (HY : 0 < IZR (Zpos my) * bpow ey) by (apply Rmult_lt_0_compat; lra).
  set (X := IZR (Zpos mx) * bpow ex / (IZR (Zpos my) * bpow ey)).
  assert (HXv : IZR (Zpos mx) * bpow ex = IZR (Zpos my * q + r) * bpow e' * bpow ey).
  { replace ex with ((e' + ey) + s)%Z by (subst s; lia).
    rewrite IZR_scale by lia. rewrite Heq, bpow_plus. ring. }
  set (R0 := IZR r / IZR (Zpos my)).
  assert (HR0 : 0 <= R0 < 1).
  { subst R0. split.
    - apply Rmult_le_pos; [apply IZR_le; lia|]. left. apply Rinv_0_lt_compat. lra.
    - apply (Rmult_lt_reg_r (IZR (Zpos my))); [lra|].
      unfold Rdiv. rewrite Rmult_assoc, Rinv_l by lra. rewrite Rmult_1_r, Rmult_1_l.
      apply IZR_lt. lia. }
  assert (HX : X = (IZR q + R0) * bpow e').
  { subst X R0. rewrite HXv, plus_IZR, mult_IZR. field. split; lra. }
  split; [exact Hq|].
  split; [rewrite HX; apply Rmult_le_compat_r; lra|].
  split; [rewrite HX, plus_IZR; apply Rmult_lt_compat_r; lra|].
  split.
  { intros Hl. apply new_location_exact in Hl. subst r.
    rewrite HX. subst R0. unfold Rdiv. rewrite Rmult_0_l, Rplus_0_r. reflexivity. }
  intros _.
  pose proof u_pos. pose proof eta_pos.
  assert (HX0 : 0 <= X) by (rewrite HX; apply Rmult_le_pos; [pose proof (IZR_le 0 q Hq)|]; lra).
  assert (HXu : 0 <= X * u) by (apply Rmult_le_pos; lra).
  assert (He'le : bpow e' <= bpow (SpecFloat.fexp prec emax (d1 + ex - (d2 + ey))))
    by (apply bpow_le; subst e'; lia).
  rewrite fexp_eq in He'le.
  destruct (Z.max_spec (d1 + ex - (d2 + ey) - 53) (-1074)) as [[_ Hmax]|[_ Hmax]];
    rewrite Hmax in He'le; [unfold eta; lra|].
  set (D := (d1 + ex - (d2 + ey))%Z) in *.
  assert (HD : bpow (D - 1) <= X).
  { pose proof (dig_bounds (Zpos mx) ltac:(lia)) as [Hb1 _].
    pose proof (dig_bounds (Zpos my) ltac:(lia)) as [_ Hb2].
    fold d1 in Hb1. fold d2 in Hb2.
    pose proof (dig_pos (Zpos mx) ltac:(lia)) as Hq1. pose proof (dig_pos (Zpos my) ltac:(lia)) as Hq2.
    fold d1 in Hq1. fold d2 in Hq2.
    assert (Hmx : bpow (d1 - 1) <= IZR (Zpos mx))
      by (rewrite bpow_IZR by lia; apply IZR_le; lia).
    assert (Hmy2 : IZR (Zpos my) <= bpow d2)
      by (rewrite bpow_IZR by lia; apply IZR_le; lia).
    assert (Hmain : bpow (D - 1) * (IZR (Zpos my) * bpow ey) <= IZR (Zpos mx) * bpow ex).
    { assert (E1 : bpow (D - 1) * (bpow d2 * bpow ey) = bpow (d1 - 1) * bpow ex).
      { rewrite <- !bpow_plus. f_equal. subst D. lia. }
      pose proof (bpow_pos (D - 1)). pose proof (bpow_pos (d1 - 1)).
      apply Rle_trans with (bpow (D - 1) * (bpow d2 * bpow ey)).
      - apply Rmult_le_compat_l; [lra|]. apply Rmult_le_compat_r; lra.
      - rewrite E1. apply Rmult_le_compat_r; lra. }
    subst X. apply (Rmult_le_reg_r (IZR (Zpos my) * bpow ey)); [exact HY|].
    unfold Rdiv. rewrite Rmult_assoc, Rinv_l by lra. lra. }
  replace (D - 53)%Z with ((D - 1) + -52)%Z in He'le by lia.
  rewrite bpow_plus in He'le. fold u in He'le.
  assert (bpow (D - 1) * u <= X * u) by (apply Rmult_le_compat_r; lra).
  lra.
Qed.

End FloatDiv.

Module FloatChain.
Import FloatError FloatValid FloatDiv Waveform.
Local Open Scope R_scope.

(** A float that is [+0], positive finite or [+inf]. *)
Definition nonneg_sf (z : spec_float) : Prop :=
  z = S754_zero false \/ (exists m e, z = S754_finite false m e) \/
  z = S754_infinity false.

Lemma pval_nonneg z : 0 <= pval z.
Proof.
  destruct z as [| | |[] m e]; simpl; try lra.
  apply Rmult_le_pos; [apply IZR_le; lia|left; apply bpow_pos].
Qed.

Lemma bpow_0 : bpow 0 = 1.
Proof. reflexivity. Qed.

Lemma bpow_opp e : bpow e * bpow (- e) = 1.
Proof. rewrite <- bpow_plus, Z.add_opp_diag_r. apply bpow_0. Qed.

Lemma pval_scaled c n : (0 <= n)%Z -> (0 < c * 2 ^ n)%Z ->
  pval (S754_finite false (Z.to_pos (c * 2 ^ n)) (- n)) = IZR c.
Proof.
  intros Hn Hc. simpl. rewrite Z2Pos.id by exact Hc.
  rewrite mult_IZR, <- (bpow_IZR n Hn), Rmult_assoc, bpow_opp. ring.
Qed.

Lemma u_tiny : u <= / 1000000.
Proof.
  assert (E : bpow (-20) * IZR (2 ^ 20) = 1).
  { rewrite <- (bpow_IZR 20) by lia. rewrite <- bpow_plus. apply bpow_0. }
  change (IZR (2 ^ 20)) with 1048576 in E.
  assert (u <= bpow (-20)) by (apply bpow_le; lia).
  assert (bpow (-20) = / 1048576) as E'.
  { apply (Rmult_eq_reg_r 1048576); [|lra]. rewrite E, Rinv_l; lra. }
  lra.
Qed.

Lemma eta_le_u : eta <= u.
Proof. apply bpow_le. lia. Qed.

(** Division by a positive finite float. *)
Lemma div_by_finite x y my ey :
  nonneg_sf (Prim2SF x) -> Prim2SF y = S754_finite false my ey ->
  nonneg_sf (Prim2SF (x / y)) /\
  (Prim2SF (x / y) <> S754_infinity false ->
   Prim2SF x <> S754_infinity false /\
   let X := pval (Prim2SF x) / pval (Prim2SF y) in
   X * (1 - 2 * u) - 2 * eta <= pval (Prim2SF (x / y)) <= X * (1 + u) + eta).
Proof.
  intros Hx Hy. rewrite div_spec, Hy. unfold SF64div.
  pose proof u_pos. pose proof eta_pos.
  destruct Hx as [Hx|[[mx [ex Hx]]|Hx]]; rewrite Hx; simpl SFdiv.
  - split; [left; reflexivity|]. intros _. split; [discriminate|]. simpl.
    unfold Rdiv. rewrite Rmult_0_l. split; lra.
  - pose proof (div_core_inbetween mx ex my ey) as HI.
    destruct (SFdiv_core_binary prec emax (Zpos mx) ex (Zpos my) ey) as [[q e'] l].
    pose proof (binary_round_aux_bounds _ _ _ _ HI) as [H1 H2].
    simpl xorb. split; [exact H1|]. intros Hn. split; [discriminate|].
    exact (H2 Hn).
  - split; [right; right; reflexivity|]. intros Hn. exfalso. apply Hn. reflexivity.
Qed.

(** A positive finite float divided by a positive float. *)
Lemma div_finite_by_pos x y mx ex :
  Prim2SF x = S754_finite false mx ex ->
  (Prim2SF y = S754_infinity false \/ exists my ey, Prim2SF y = S754_finite false my ey) ->
  nonneg_sf (Prim2SF (x / y)).
Proof.
  intros Hx [Hy|[my [ey Hy]]].
  - rewrite div_spec, Hx, Hy. left. reflexivity.
  - apply (div_by_finite x y my ey); [|exact Hy]. right; left; eauto.
Qed.

(** [math.ceil] of a nonnegative float bounds it from above. *)
Lemma py_ceil_bound x k :
  nonneg_sf (Prim2SF x) -> py_ceil x = Ok k ->
  (0 <= k)%Z /\ pval (Prim2SF x) <= IZR k.
Proof.
  unfold py_ceil. intros [Hx|[[m [e Hx]]|Hx]]; rewrite Hx; intros H.
  - injection H as <-. split; [lia|]. simpl. lra.
  - simpl pval.
    destruct (Z.leb_spec 0 e) as [He|He]; cbv beta iota zeta in H.
    + assert (Hk : k = (Zpos m * 2 ^ e)%Z) by (injection H; auto). subst k.
      split; [apply Z.mul_nonneg_nonneg; [lia|apply Z.pow_nonneg; lia]|].
      rewrite mult_IZR, (bpow_IZR e He). lra.
    + assert (Hp : (0 < 2 ^ (- e))%Z) by (apply Z.pow_pos_nonneg; lia).
      pose proof (Z_div_mod_eq_full (Zpos m) (2 ^ (- e))) as Hdm.
      pose proof (Z.mod_pos_bound (Zpos m) (2 ^ (- e)) Hp) as Hmod.
      set (q := (Zpos m / 2 ^ (- e))%Z) in *.
      set (r := (Zpos m mod 2 ^ (- e))%Z) in *.
      assert (Hq : (0 <= q)%Z) by (apply Z.div_pos; lia).
      assert (Hk : (Zpos m <= k * 2 ^ (- e))%Z /\ (0 <= k)%Z).
      { destruct (Z.eqb_spec r 0) as [Hr|Hr]; injection H as <-; split; nia. }
      destruct Hk as [Hk Hk0]. split; [exact Hk0|].
      pose proof (bpow_pos e).
      apply (Rmult_le_reg_r (bpow (- e))); [apply bpow_pos|].
      rewrite Rmult_assoc, bpow_opp, Rmult_1_r.
      rewrite (bpow_IZR (- e)) by lia. rewrite <- mult_IZR. apply IZR_le. exact Hk.
  - discriminate.
Qed.

(** [int(x)] of a nonnegative float is at most [x]. *)
Lemma py_int_of_float_bound x n :
  nonneg_sf (Prim2SF x) -> py_int_of_float x = Ok n ->
  Prim2SF x <> S754_infinity false /\ IZR n <= pval (Prim2SF x).
Proof.
  unfold py_int_of_float. intros [Hx|[[m [e Hx]]|Hx]]; rewrite Hx; intros H.
  - injection H as <-. split; [discriminate|]. simpl. lra.
  - split; [discriminate|]. simpl pval.
    destruct (Z.leb_spec 0 e) as [He|He]; cbv beta iota zeta in H.
    + assert (Hk : n = (Zpos m * 2 ^ e)%Z) by (injection H; auto). subst n.
      rewrite mult_IZR, (bpow_IZR e He). lra.
    + assert (Hk' : n = (Zpos m / 2 ^ (- e))%Z) by (injection H; auto). subst n.
      assert (Hp : (0 < 2 ^ (- e))%Z) by (apply Z.pow_pos_nonneg; lia).
      assert (Hk : (Zpos m / 2 ^ (- e) * 2 ^ (- e) <= Zpos m)%Z).
      { rewrite Z.mul_comm. apply Z.mul_div_le. lia. }
      apply (Rmult_le_reg_r (bpow (- e))); [apply bpow_pos|].
      rewrite Rmult_assoc, bpow_opp, Rmult_1_r.
      rewrite (bpow_IZR (- e)) by lia. rewrite <- mult_IZR. apply IZR_le. exact Hk.
  - discriminate.
Qed.

(** [float(n)] of a positive int is a positive finite float close to [n]. *)
Lemma py_float_of_int_bound n F : (0 < n)%Z -> py_float_of_int n = Ok F ->
  (exists m e, Prim2SF F = S754_finite false m e) /\
  IZR n * (1 - 2 * u) - 2 * eta <= pval (Prim2SF F).
Proof.
  intros Hn. unfold py_float_of_int.
  destruct (binary_normalize_int n Hn) as [mz [ez [Heq [Hm [He Hv]]]]].
  rewrite Heq.
  assert (HI : InBetween (IZR n) mz ez loc_Exact).
  { assert (HX : IZR n = IZR mz * bpow ez).
    { destruct Hv as [[-> ->]|[Hez ->]].
      - rewrite bpow_0. ring.
      - rewrite mult_IZR, <- (bpow_IZR (- ez)) by lia.
        rewrite Rmult_assoc, (Rmult_comm (bpow (- ez))), bpow_opp. ring. }
    pose proof (bpow_pos ez).
    split; [lia|]. split; [lra|]. split.
    - rewrite HX, plus_IZR. lra.
    - split; [intros _; exact HX|]. intros C; exfalso; apply C; reflexivity. }
  pose proof (binary_round_aux_bounds _ _ _ _ HI) as [H1 H2].
  pose proof (binary_round_aux_valid false mz ez loc_Exact ltac:(lia) He) as Hval.
  set (z := binary_round_aux prec emax false mz ez loc_Exact) in *.
  intros H.
  assert (Hz : z <> S754_infinity false) by (intros E; rewrite E in H; discriminate).
  assert (HF0 : F = SF2Prim z).
  { clearbody z. destruct z as [sz|sz| |sz mz' ez'];
      try (destruct sz; discriminate);
      injection H; intros E; rewrite <- E; reflexivity. }
  assert (HF : Prim2SF F = z) by (rewrite HF0; apply Prim2SF_SF2Prim; exact Hval).
  rewrite HF. specialize (H2 Hz).
  pose proof u_tiny. pose proof eta_le_u. pose proof eta_pos.
  assert (Hn1 : 1 <= IZR n) by (apply IZR_le; lia).
  destruct H1 as [E|[[m [e E]]|E]].
  - exfalso. rewrite E in H2. simpl in H2.
    assert (IZR n * u <= IZR n / 1000000) by (apply Rmult_le_compat_l; lra).
    lra.
  - split; [eauto|]. lra.
  - contradiction.
Qed.


Lemma relax_lo X : 0 <= X -> X * (1 - 2 / 1000000) - 2 / 1000000 <= X * (1 - 2 * u) - 2 * eta.
Proof.
  intros HX. pose proof u_tiny. pose proof eta_le_u.
  assert (X * u <= X * / 1000000) by (apply Rmult_le_compat_l; lra). lra.
Qed.

Lemma relax_hi X : 0 <= X -> X * (1 + u) + eta <= X * (1 + 1 / 1000000) + 1 / 1000000.
Proof.
  intros HX. pose proof u_tiny. pose proof eta_le_u.
  assert (X * u <= X * / 1000000) by (apply Rmult_le_compat_l; lra). lra.
Qed.

Lemma pos_float_cases f : (0 <? f)%float = true ->
  Prim2SF f = S754_infinity false \/ exists m e, Prim2SF f = S754_finite false m e.
Proof.
  rewrite ltb_spec, FloatSign.Prim2SF_zero.
  destruct (Prim2SF f) as [[]|[]| |[] m e]; simpl; intros H; try discriminate; eauto.
Qed.

(** C6: for every frequency [f > 0] (a positive double), when
    [generate_sine_wave] computes its timing without raising, the number of
    samples [required_buffer = int(period_us / sample_time_us)] is at most
    the buffer length 1024: the upward rounding of [math.ceil] outweighs the
    rounding errors of the four float divisions. *)
Theorem C6_required_buffer_le f t :
  (0 <? f)%float = true -> sine_timing f = Ok t -> (required_buffer t <= 1024)%Z.
Proof.
  intros Hf H. unfold sine_timing, py_fdiv_int, py_fdiv in H.
  destruct (py_float_of_int 1000000) as [million|] eqn:E0; cbn [bind] in H; [|discriminate].
  destruct (PrimFloat.eqb f 0%float); cbn [bind] in H; [discriminate|].
  destruct (py_float_of_int NV200_WAVEFORM_BUFFER_SIZE) as [f1024|] eqn:E1;
    cbn [bind] in H; [|discriminate].
  destruct (PrimFloat.eqb f1024 0%float); cbn [bind] in H; [discriminate|].
  destruct (py_float_of_int NV200_BASE_SAMPLE_TIME_US) as [f50|] eqn:E2;
    cbn [bind] in H; [|discriminate].
  destruct (PrimFloat.eqb f50 0%float); cbn [bind] in H; [discriminate|].
  set (period := (million / f)%float) in H.
  set (ideal := (period / f1024)%float) in H.
  set (units := (ideal / f50)%float) in H.
  destruct (py_ceil units) as [k|] eqn:Ek; cbn [bind] in H; [|discriminate].
  destruct (py_float_of_int (k * NV200_BASE_SAMPLE_TIME_US)) as [F|] eqn:EF;
    cbn [bind] in H; [|discriminate].
  destruct (PrimFloat.eqb F 0%float) eqn:EF0; cbn [bind] in H; [discriminate|].
  destruct (py_int_of_float (period / F)) as [n|] eqn:En; cbn [bind] in H; [|discriminate].
  injection H as <-. simpl required_buffer.
  (* the three constants *)
  assert (Hmil : Prim2SF million = S754_finite false 8589934592000000 (-33)).
  { vm_compute in E0. injection E0 as <-. vm_compute. reflexivity. }
  assert (H1024 : Prim2SF f1024 = S754_finite false 4503599627370496 (-42)).
  { vm_compute in E1. injection E1 as <-. vm_compute. reflexivity. }
  assert (H50 : Prim2SF f50 = S754_finite false 7036874417766400 (-47)).
  { vm_compute in E2. injection E2 as <-. vm_compute. reflexivity. }
  assert (V1024 : pval (Prim2SF f1024) = 1024).
  { rewrite H1024. exact (pval_scaled 1024 42 ltac:(lia) ltac:(lia)). }
  assert (V50 : pval (Prim2SF f50) = 50).
  { rewrite H50. exact (pval_scaled 50 47 ltac:(lia) ltac:(lia)). }
  (* the chain of roundings *)
  assert (Hper : nonneg_sf (Prim2SF period))
    by exact (div_finite_by_pos million f _ _ Hmil (pos_float_cases f Hf)).
  destruct (div_by_finite period f1024 _ _ Hper H1024) as [Hid D1].
  destruct (div_by_finite ideal f50 _ _ Hid H50) as [Hun D2].
  destruct (py_ceil_bound units k Hun Ek) as [Hk0 HK].
  assert (Hu_inf : Prim2SF units <> S754_infinity false).
  { intros Einf. unfold py_ceil in Ek. rewrite Einf in Ek. discriminate. }
  destruct (D2 Hu_inf) as [Hid_inf HQ]. destruct (D1 Hid_inf) as [_ HY].
  rewrite V50 in HQ. rewrite V1024 in HY.
  assert (Hk1 : (1 <= k)%Z).
  { destruct (Z.eq_dec k 0) as [->|]; [|lia].
    vm_compute in EF. injection EF as <-. vm_compute in EF0. discriminate. }
  unfold NV200_BASE_SAMPLE_TIME_US in EF.
  destruct (py_float_of_int_bound (k * 50) F ltac:(lia) EF) as [[mF [eF HFf]] HF].
  destruct (div_by_finite period F _ _ Hper HFf) as [Hr D3].
  destruct (py_int_of_float_bound _ n Hr En) as [Hr_inf HN].
  destruct (D3 Hr_inf) as [_ HR].
  cbv zeta in HQ, HY, HR.
  change (ideal / f50)%float with units in HQ.
  change (period / f1024)%float with ideal in HY.
  (* real arithmetic *)
  set (P := pval (Prim2SF period)) in *.
  set (Y := pval (Prim2SF ideal)) in *.
  set (Q := pval (Prim2SF units)) in *.
  set (Fv := pval (Prim2SF F)) in *.
  set (r := pval (Prim2SF (period / F))) in *.
  assert (HP0 : 0 <= P) by apply pval_nonneg.
  assert (HY0 : 0 <= Y) by apply pval_nonneg.
  pose proof (relax_lo (P / 1024) ltac:(lra)) as R1.
  pose proof (relax_lo (Y / 50) ltac:(lra)) as R2.
  rewrite mult_IZR in HF.
  assert (HK1 : 1 <= IZR k) by (apply IZR_le; exact Hk1).
  pose proof (relax_lo (IZR k * 50) ltac:(lra)) as R3.
  assert (HFv : 0 < Fv) by lra.
  assert (HPF : P <= 2049 / 2 * Fv) by (destruct (Rle_lt_dec P 50000); lra).
  assert (HX : P / Fv <= 2049 / 2).
  { apply (Rmult_le_reg_r Fv); [exact HFv|].
    unfold Rdiv. rewrite Rmult_assoc, Rinv_l by lra. lra. }
  assert (HX0 : 0 <= P / Fv) by (apply Rmult_le_pos; [lra|left; apply Rinv_0_lt_compat; lra]).
  pose proof (relax_hi (P / Fv) HX0) as R4.
  assert (IZR n < IZR 1025) by lra.
  apply lt_IZR in H. lia.
Qed.

(** Witness of C6: [f = 0.1] gives factor 196, 9800 us and 1020 samples. *)
Lemma C6_required_buffer_le_witness :
  (0 <? 0x1.999999999999ap-4)%float = true /\
  sine_timing 0x1.999999999999ap-4%float =
    Ok {| sample_factor := 196; sample_time_us := 9800; required_buffer := 1020 |} /\
  (required_buffer {| sample_factor := 196; sample_time_us := 9800;
                      required_buffer := 1020 |} <= 1024)%Z.
Proof.
  split; [vm_compute; reflexivity|].
  split; [vm_compute; reflexivity|].
  apply (C6_required_buffer_le 0x1.999999999999ap-4%float); vm_compute; reflexivity.
Defined.

End FloatChain.

(* ------------------------------------------------------------------ *)
(** ** Recording duration: [set_recording_duration_ms] *)

Module RecorderFacts.
Import Client Recorder FloatSign.

Lemma buffer_duration_s_value : buffer_duration_s = Ok 0x1.3a92a30553262p-2%float.
Proof. vm_compute. reflexivity. Qed.

Lemma mbind_ok {A B} (m : M A) (k : A -> M B) l a l1 :
  m l = (Ok a, l1) -> mbind m k l = k a l1.
Proof. unfold mbind. intros ->. reflexivity. Qed.

Lemma mbind_ok_inv {A B} (m : M A) (k : A -> M B) l b l2 :
  mbind m k l = (Ok b, l2) ->
  exists a l1, m l = (Ok a, l1) /\ k a l1 = (Ok b, l2).
Proof.
  unfold mbind. destruct (m l) as [[a|e] l1]; intros H.
  - exists a, l1. split; [reflexivity|exact H].
  - discriminate.
Qed.

End RecorderFacts.

(* ------------------------------------------------------------------ *)
(** ** Response decoding *)

Module WireFacts.
Import Wire.

Lemma from_value_value n :
  value (from_value n) = (if (1 <=? n)%Z && (n <=? 10)%Z then n else 1)%Z.
Proof.
  destruct ((1 <=? n)%Z && (n <=? 10)%Z) eqn:E.
  - apply andb_true_iff in E as [E1 E2].
    apply Z.leb_le in E1. apply Z.leb_le in E2.
    assert (n = 1 \/ n = 2 \/ n = 3 \/ n = 4 \/ n = 5 \/ n = 6 \/ n = 7 \/
            n = 8 \/ n = 9 \/ n = 10)%Z as Hn by lia.
    repeat destruct Hn as [->|Hn]; try reflexivity; subst; reflexivity.
  - assert (Hout : (n < 1 \/ 10 < n)%Z).
    { destruct (Z.leb_spec 1 n), (Z.leb_spec n 10); simpl in E;
        try discriminate; lia. }
    unfold from_value. cbn [find members value].
    repeat rewrite (proj2 (Z.eqb_neq _ _)) by lia.
    reflexivity.
Qed.

(** C1 (code bug): the comment [# Default error: Error not specified] and
    the docstring promise a [DeviceError] with the default code 1 for an
    error line whose code does not parse, and a [DeviceError] for every
    error line. On [error,x] the code builds [DeviceError(1)] from a bare
    int, whose constructor reads [.value] of it and raises
    [AttributeError]; on [error] (no comma) it returns [None]. *)
Lemma C1_error_line_code_bug_counterexample :
  parse_response (lit "error,x") = Err AttributeError /\
  parse_response (lit "error") = Ok None.
Proof. split; vm_compute; reflexivity. Qed.

(** C1: the outcomes of [_parse_response] on an error line. For a reply
    that starts with [error], let [field] be the text after its first comma
    with [\x01 \n \r \x00] stripped. If [field] parses as the integer
    [n], [DeviceError] is raised with code [n] when [n] is an [ErrorCode]
    value (1..10) and with code 1 ([ERROR_NOT_SPECIFIED]) otherwise. If [field] does not parse, the
    intended [DeviceError(1)] is built from a bare int and [AttributeError]
    is raised instead. If the reply has no comma, [None] is returned. *)
Theorem C1_error_line_outcomes (response : str) :
  startswith (lit "error") response = true ->
  let parts := split1 ","%char response in
  let field := strip ctrl_chars (nth 1 parts []) in
  (forall n, (1 < List.length parts)%nat -> py_int_of_str field = Ok n ->
     parse_response response =
       Err (DeviceErrorExn (if (1 <=? n)%Z && (n <=? 10)%Z then n else 1%Z))) /\
  ((1 < List.length parts)%nat -> py_int_of_str field = Err ValueError ->
     parse_response response = Err AttributeError) /\
  ((List.length parts <= 1)%nat -> parse_response response = Ok None).
Proof.
  intros Hs parts field. unfold parse_response. rewrite Hs. fold parts. fold field.
  split; [|split].
  - intros n Hl Hn. apply Nat.ltb_lt in Hl. rewrite Hl, Hn.
    simpl. rewrite from_value_value. reflexivity.
  - intros Hl Hn. apply Nat.ltb_lt in Hl. rewrite Hl, Hn. reflexivity.
  - intros Hl. apply Nat.ltb_ge in Hl. rewrite Hl. reflexivity.
Qed.

Lemma C1_error_line_outcomes_witness :
  parse_response (lit "error,7") = Err (DeviceErrorExn 7) /\
  parse_response (lit "error,x") = Err AttributeError /\
  parse_response (lit "error") = Ok None.
Proof.
  split; [|split].
  - apply (proj1 (C1_error_line_outcomes (lit "error,7") eq_refl) 7%Z);
      vm_compute; reflexivity.
  - apply (proj1 (proj2 (C1_error_line_outcomes (lit "error,x") eq_refl)));
      vm_compute; reflexivity.
  - apply (proj2 (proj2 (C1_error_line_outcomes (lit "error") eq_refl))).
    vm_compute. lia.
Defined.

End WireFacts.

(* ------------------------------------------------------------------ *)
(** ** Command client: [write] and [read] on timeout *)

Module ClientFacts.
Import Wire Client.

(** C4: for every command string, [write] returns [None] (does not raise)
    when no reply arrives within its 0.1 s timeout, while [read] raises
    [TimeoutError] when no reply arrives within its explicit timeout. *)
Theorem C4_write_none_read_timeout (cmd : str) (l : Link) :
  (no_reply_within WRITE_TIMEOUT_MS l -> fst (write cmd l) = Ok None) /\
  (forall timeout_ms, no_reply_within timeout_ms l ->
     fst (read cmd timeout_ms l) = Err TimeoutError).
Proof.
  destruct l as [sent0 pending0]. unfold no_reply_within. simpl.
  split; [|intros t]; intros H;
    unfold write, read, mbind, transport_write, wait_for_response; simpl;
    destruct pending0 as [|r rest]; try reflexivity;
    apply Z.ltb_ge in H; rewrite H; reflexivity.
Qed.

Lemma C4_write_none_read_timeout_witness :
  let l := {| sent := []; pending := [{| delay_ms := 500; data := lit "cl,1" |}] |} in
  fst (write (lit "cl,1") l) = Ok None /\
  fst (read (lit "cl") DEFAULT_TIMEOUT_MS l) = Err TimeoutError.
Proof.
  intros l. split.
  - apply (proj1 (C4_write_none_read_timeout (lit "cl,1") l)).
    unfold no_reply_within, l; simpl; unfold WRITE_TIMEOUT_MS; lia.
  - apply (proj2 (C4_write_none_read_timeout (lit "cl") l)).
    unfold no_reply_within, l; simpl. unfold DEFAULT_TIMEOUT_MS. lia.
Defined.

End ClientFacts.

(* ------------------------------------------------------------------ *)
(** ** Recording plan claims *)

Module RecorderClaims.
Import Client Recorder FloatSign RecorderFacts.

(** C5: for every duration [D >= 0] ms, a plan returned by
    [set_recording_duration_ms] has [buffer_length <= 6144] and
    [stride >= 1]. *)
Theorem C5_plan_bounds (milliseconds : float) (l l' : Link) (p : RecorderParam) :
  (0 <=? milliseconds)%float = true ->
  set_recording_duration_ms milliseconds l = (Ok p, l') ->
  (bufsize p <= NV200_RECORDER_BUFFER_SIZE /\ 1 <= stride p)%Z.
Proof.
  intros Hms H.
  unfold set_recording_duration_ms in H.
  apply mbind_ok_inv in H as (bd & l1 & Hbd & H).
  unfold lift in Hbd. rewrite buffer_duration_s_value in Hbd.
  injection Hbd as <- <-.
  apply mbind_ok_inv in H as (q & l2 & Hq & H).
  unfold lift in Hq. injection Hq as Hq <-.
  apply mbind_ok_inv in H as (sr & l3 & _ & H).
  apply mbind_ok_inv in H as (c & l4 & _ & H).
  apply mbind_ok_inv in H as (u1 & l5 & _ & H).
  apply mbind_ok_inv in H as (u2 & l6 & _ & H).
  unfold ret in H. injection H as <- <-. simpl.
  split; [apply Z.le_min_r|].
  enough (0 <= q)%Z by lia.
  eapply py_int_of_float_nonneg; [|exact Hq].
  eapply div_nonneg; [|vm_compute; reflexivity].
  eapply div_nonneg; [exact Hms|vm_compute; reflexivity].
Qed.

Lemma C5_plan_bounds_witness :
  (0 <=? 100)%float = true /\
  set_recording_duration_ms 100 {| sent := []; pending := [] |} =
    (Ok {| bufsize := 2000; stride := 1; sample_freq := 20000 |},
     {| sent := [lit "recstr,1" ++ [CR]; lit "reclen,2000" ++ [CR]]; pending := [] |}) /\
  (2000 <= NV200_RECORDER_BUFFER_SIZE /\ 1 <= 1)%Z.
Proof.
  assert (H0 : (0 <=? 100)%float = true) by (vm_compute; reflexivity).
  assert (H1 : set_recording_duration_ms 100 {| sent := []; pending := [] |} =
    (Ok {| bufsize := 2000; stride := 1; sample_freq := 20000 |},
     {| sent := [lit "recstr,1" ++ [CR]; lit "reclen,2000" ++ [CR]]; pending := [] |}))
    by (vm_compute; reflexivity).
  split; [exact H0|]. split; [exact H1|].
  exact (C5_plan_bounds 100 _ _ _ H0 H1).
Defined.

(** C2 (counterexample): for [D = 35] ms the spec's formula, in exact
    arithmetic, gives [buffer_length = ceil(20000 * 0.035) = 700], while
    [set_recording_duration_ms 35] computes [35 / 1000.0 = 0.035000000000000003]
    and returns a plan with [buffer_length = 701]. *)
Lemma C2_duration_35ms_counterexample :
  spec_buffer_length 35 = 700%Z /\
  fst (set_recording_duration_ms 35 {| sent := []; pending := [] |}) =
    Ok {| bufsize := 701; stride := 1; sample_freq := 20000 |}.
Proof. split; vm_compute; reflexivity. Qed.

(** C2 (amended): for every duration [D] and every state of the link,
    [set_recording_duration_ms D] computes the plan of [spec_double_plan D]
    (the spec's formula in double precision, with [int(...)] truncation for
    the stride), then calls [set_recorder_stride] and
    [set_sample_buffer_size] (which raises [ValueError] unless
    [1 <= buffer_length <= 6144]) with it and returns it; an exception of
    the computation is raised before anything is sent. For
    [D = 100] ms the plan is stride 1, sample rate 20000 and buffer length
    2000, the exact formula's values; for [D = 35] ms it has buffer length
    701 where the exact formula gives 700. *)
Theorem C2_recording_plan_values :
  (forall (milliseconds : float) (l : Link),
     set_recording_duration_ms milliseconds l =
       match spec_double_plan milliseconds with
       | Ok p => (set_recorder_stride (stride p) ;;;
                  set_sample_buffer_size (bufsize p) ;;; ret p) l
       | Err e => (Err e, l)
       end) /\
  spec_double_plan 100 = Ok {| bufsize := 2000; stride := 1; sample_freq := 20000 |} /\
  spec_stride 100 = 1%Z /\ spec_buffer_length 100 = 2000%Z /\
  spec_double_plan 35 = Ok {| bufsize := 701; stride := 1; sample_freq := 20000 |} /\
  spec_buffer_length 35 = 700%Z.
Proof.
  split; [|repeat split; vm_compute; reflexivity].
  intros ms l.
  assert (Hbw : ((1 / 20000) * 6144)%float = 0x1.3a92a30553262p-2%float)
    by (vm_compute; reflexivity).
  unfold set_recording_duration_ms, spec_double_plan.
  rewrite Hbw.
  unfold mbind at 1. unfold lift at 1. rewrite buffer_duration_s_value.
  unfold mbind at 1. unfold lift at 1.
  destruct (py_int_of_float _) as [q|e]; [|reflexivity]. simpl bind.
  unfold mbind at 1. unfold lift at 1.
  destruct (py_int_truediv _ _) as [sr|e]; [|reflexivity]. simpl bind.
  unfold mbind at 1. unfold lift at 1.
  destruct (py_ceil _) as [c|e]; reflexivity.
Qed.

End RecorderClaims.

(* ------------------------------------------------------------------ *)
(** ** The sine generator *)

Module WaveformFacts.
Import Waveform.

Lemma mapM_length {A B} (f : A -> result B) (l : list A) (l' : list B) :
  mapM f l = Ok l' -> List.length l' = List.length l.
Proof.
  revert l'. induction l as [|x r IH]; simpl; intros l' H.
  - injection H as <-. reflexivity.
  - destruct (f x) as [y|e]; simpl in H; [|discriminate].
    destruct (mapM f r) as [ys|e] eqn:E; simpl in H; [|discriminate].
    injection H as <-. simpl. f_equal. apply IH. reflexivity.
Qed.

Lemma range_length n : List.length (range n) = Z.to_nat n.
Proof. unfold range. rewrite length_map, length_seq. reflexivity. Qed.

(** Whatever [math.sin] is, a generated waveform has [required_buffer]
    samples and the sample time [sample_time_us / 1000] of its timing. *)
Lemma generate_shape math_sin f lo hi ph w :
  generate_sine_wave math_sin f lo hi ph = Ok w ->
  exists t, sine_timing f = Ok t /\
    List.length (values w) = Z.to_nat (required_buffer t) /\
    py_int_truediv (sample_time_us t) 1000 = Ok (sample_time_ms w).
Proof.
  unfold generate_sine_wave. intros H.
  destruct (sine_timing f) as [t|e]; simpl in H; [|discriminate].
  exists t. split; [reflexivity|].
  destruct (py_int_truediv (sample_time_us t) 1000000); simpl in H; [|discriminate].
  destruct (mapM _ (range (required_buffer t))) as [times|e] eqn:Et;
    simpl in H; [|discriminate].
  destruct (mapM _ times) as [vals|e] eqn:Ev; simpl in H; [|discriminate].
  destruct (py_int_truediv (sample_time_us t) 1000) as [st|e];
    simpl in H; [|discriminate].
  injection H as <-. simpl. split; [|reflexivity].
  rewrite (mapM_length _ _ _ Ev), (mapM_length _ _ _ Et), range_length. reflexivity.
Qed.

(** [f = 10^-305]: [10^6 / f] overflows to infinity and [math.ceil]
    raises [OverflowError]; no samples are generated. *)
Lemma C3_tiny_frequency_counterexample :
  (0 <? 0x1.c16c5c5253575p-1014%float)%float = true /\
  sine_timing 0x1.c16c5c5253575p-1014%float = Err OverflowError.
Proof. split; vm_compute; reflexivity. Qed.

(** A positive frequency for which [10^6 / f] overflows to infinity: the
    period stays infinite through the two divisions and [math.ceil] raises
    [OverflowError], before any sample is generated. *)
Lemma period_overflow math_sin f lo hi ph :
  (0 <? f)%float = true -> (1000000 / f)%float = infinity ->
  sine_timing f = Err OverflowError /\
  generate_sine_wave math_sin f lo hi ph = Err OverflowError.
Proof.
  intros Hpos Hinf.
  assert (Hf0 : (f =? 0)%float = false).
  { revert Hpos. rewrite FloatAxioms.ltb_spec, FloatAxioms.eqb_spec.
    destruct (Prim2SF f) as [[]|[]| |[] m e]; vm_compute; congruence. }
  assert (Hp : py_fdiv 1000000 f = Ok infinity).
  { unfold py_fdiv. rewrite Hf0, Hinf. reflexivity. }
  assert (Hts : sine_timing f = Err OverflowError).
  { unfold sine_timing.
    replace (py_float_of_int 1000000) with (Ok 1000000%float)
      by (vm_compute; reflexivity).
    cbn [bind]. rewrite Hp. cbn [bind]. vm_compute. reflexivity. }
  split; [exact Hts|].
  unfold generate_sine_wave. rewrite Hts. reflexivity.
Qed.

(** C3 (amended): in double-precision arithmetic, [generate_sine_wave]
    computes [period_us = 10^6 / f], [sample_factor = ceil(period_us / 1024
    / 50)], [sample_time_us = 50 * sample_factor] and generates
    [int(period_us / sample_time_us)] samples with sample time
    [sample_time_us / 1000] ms, for every [math.sin]; for [f = 0.1] Hz this is
    factor 196, 9.8 ms and 1020 samples; for every positive [f] for which
    [10^6 / f] overflows to infinity (as for [f = 10^-305]) [OverflowError]
    is raised and no waveform is produced. *)
Theorem C3_sine_quantization math_sin :
  (forall f lo hi ph w,
     generate_sine_wave math_sin f lo hi ph = Ok w ->
     exists t, sine_timing f = Ok t /\
       List.length (values w) = Z.to_nat (required_buffer t) /\
       py_int_truediv (sample_time_us t) 1000 = Ok (sample_time_ms w)) /\
  (forall f lo hi ph,
     (0 <? f)%float = true -> (1000000 / f)%float = infinity ->
     sine_timing f = Err OverflowError /\
     generate_sine_wave math_sin f lo hi ph = Err OverflowError) /\
  sine_timing 0x1.999999999999ap-4%float =
    Ok {| sample_factor := 196; sample_time_us := 9800; required_buffer := 1020 |} /\
  (match generate_sine_wave math_sin 0x1.999999999999ap-4%float 0 1 0 with
   | Ok w => List.length (values w) = 1020%nat /\
             sample_time_ms w = 0x1.399999999999ap+3%float
   | Err _ => False
   end) /\
  (1000000 / 0x1.c16c5c5253575p-1014)%float = infinity /\
  sine_timing 0x1.c16c5c5253575p-1014%float = Err OverflowError.
Proof.
  split; [exact (generate_shape math_sin)|].
  split; [intros f lo hi ph; apply period_overflow|].
  split; [vm_compute; reflexivity|].
  split; [vm_compute; split; reflexivity|].
  split; vm_compute; reflexivity.
Qed.

Lemma C3_sine_quantization_witness :
  (exists t, sine_timing 0x1.999999999999ap-4%float = Ok t /\
    List.length (values {| values := repeat 0%float 1020;
                           sample_time_ms := 0x1.399999999999ap+3%float |}) =
      Z.to_nat (required_buffer t)) /\
  generate_sine_wave (fun x => 0%float) 0x1.c16c5c5253575p-1014%float 0 1 0 =
    Err OverflowError.
Proof.
  split.
  - destruct (proj1 (C3_sine_quantization (fun x => 0%float))
                0x1.999999999999ap-4%float 0%float 0%float 0%float
                {| values := repeat 0%float 1020; sample_time_ms := 0x1.399999999999ap+3%float |})
      as [t [Ht [Hl _]]].
    + vm_compute. reflexivity.
    + exists t. split; assumption.
  - refine (proj2 (proj1 (proj2 (C3_sine_quantization (fun x => 0%float)))
                     0x1.c16c5c5253575p-1014%float 0%float 1%float 0%float _ _));
      vm_compute; reflexivity.
Defined.

End WaveformFacts.

Module RunningFacts.
Import Client Waveform.

(** C10: whatever the device answers, [is_running] never returns
    [True]: the reply is converted to an int and compared with the string
    ["1"], and an int never equals a str. *)
Theorem C10_is_running_always_false (l l' : Link) (b : bool) :
  is_running l = (Ok b, l') -> b = false.
Proof.
  unfold is_running, mbind, ret.
  destruct (read_int_value (lit "grun") l) as [[r|e] l0]; intros H.
  - injection H as <- _. reflexivity.
  - discriminate.
Qed.

Definition grun_reply : Link :=
  {| sent := [];
     pending := [{| delay_ms := 5; data := lit "grun,1" ++ [chr 13; chr 10] |}] |}.

Lemma C10_is_running_always_false_witness :
  fst (read_int_value (lit "grun") grun_reply) = Ok 1%Z /\
  is_running grun_reply = (Ok false, snd (is_running grun_reply)) /\
  false = false.
Proof.
  split; [vm_compute; reflexivity|].
  split; [vm_compute; reflexivity|].
  apply (C10_is_running_always_false grun_reply (snd (is_running grun_reply)) false).
  vm_compute. reflexivity.
Defined.

End RunningFacts.

(* ------------------------------------------------------------------ *)
(** ** Enrichment of detected devices *)

Module DiscoveryFacts.
Import Discovery.
Import Waveform (str_eqb).

Section WithDevices.
Variable device_at : TransportType -> str -> DeviceBehaviour.

Lemma behaviour_from_detected d :
  behaviour device_at (from_detected_device d) = device_at (transport d) (identifier d).
Proof. destruct d as [[|] i m n s]; reflexivity. Qed.

Definition enrich_outcome (d : DetectedDevice) : option DetectedDevice :=
  match enrich_device_info device_at d with
  | Ok o => o
  | Err _ => None
  end.

Lemma enrich_never_raises d : enrich_device_info device_at d = Ok (enrich_outcome d).
Proof.
  unfold enrich_outcome, enrich_device_info, try_except, close.
  destruct (connect_result _); simpl; [|reflexivity].
  destruct (device_type_result _); simpl; [|reflexivity].
  destruct (negb _); simpl; [reflexivity|].
  destruct (actuator_name_result _); simpl; [|reflexivity].
  destruct (actuator_serial_result _); reflexivity.
Qed.

Lemma gather_all_ok (ds : list DetectedDevice) :
  gather (map (enrich_device_info device_at) ds) = Ok (map enrich_outcome ds).
Proof.
  induction ds as [|d r IH]; [reflexivity|].
  simpl. rewrite enrich_never_raises, IH. reflexivity.
Qed.

End WithDevices.


(** Three network candidates: one unreachable, one of another device
    family, one NV200. *)
Definition lab (t : TransportType) (ip : str) : DeviceBehaviour :=
  if str_eqb ip (lit "10.0.0.1") then
    {| connect_result := Err ConnectionError; device_type_result := Err TimeoutError;
       actuator_name_result := Err TimeoutError; actuator_serial_result := Err TimeoutError |}
  else if str_eqb ip (lit "10.0.0.2") then
    {| connect_result := Ok tt; device_type_result := Ok (lit "SPI Controller Box");
       actuator_name_result := Err TimeoutError; actuator_serial_result := Err TimeoutError |}
  else
    {| connect_result := Ok tt; device_type_result := Ok (lit "NV200/D_NET");
       actuator_name_result := Ok (lit "TRITOR100SG"); actuator_serial_result := Ok (lit "85533") |}.

Definition candidate (ip : str) : DetectedDevice :=
  {| transport := TELNET; identifier := ip; mac := None;
     actuator_name := None; actuator_serial := None |}.


End DiscoveryFacts.

(* ------------------------------------------------------------------ *)
(** ** Lantronix reply parsing and the interface scan *)

Module LantronixFacts.
Import Lantronix.

Lemma mac_of_payload_30 b0 b1 b2 b3 b4 b5 b6 b7 b8 b9 b10 b11 b12 b13 b14 b15
    b16 b17 b18 b19 b20 b21 b22 b23 b24 b25 b26 b27 b28 b29 :
  mac_of_payload [b0; b1; b2; b3; b4; b5; b6; b7; b8; b9; b10; b11; b12; b13;
                  b14; b15; b16; b17; b18; b19; b20; b21; b22; b23; b24; b25;
                  b26; b27; b28; b29] =
  spec_format_mac [b24; b25; b26; b27; b28; b29].
Proof. reflexivity. Qed.

Definition hex_hi (b : Byte.byte) : ascii := ascii_upper (hex_digit (Byte.to_nat b / 16)).
Definition hex_lo (b : Byte.byte) : ascii := ascii_upper (hex_digit (Byte.to_nat b mod 16)).

Lemma hex_is_00 b rest :
  (Ascii.eqb "0" (hex_hi b) && (Ascii.eqb "0" (hex_lo b) && rest)) =
  Byte.eqb b Byte.x00 && rest.
Proof. destruct b; reflexivity. Qed.

Lemma hex_is_80 b rest :
  (Ascii.eqb "8" (hex_hi b) && (Ascii.eqb "0" (hex_lo b) && rest)) =
  Byte.eqb b Byte.x80 && rest.
Proof. destruct b; reflexivity. Qed.

Lemma hex_is_A3 b rest :
  (Ascii.eqb "A" (hex_hi b) && (Ascii.eqb "3" (hex_lo b) && rest)) =
  Byte.eqb b Byte.xa3 && rest.
Proof. destruct b; reflexivity. Qed.

Lemma prefix_is_oui b24 b25 b26 b27 b28 b29 :
  startswith LAMNTONIX_MAC_PREFIX (spec_format_mac [b24; b25; b26; b27; b28; b29]) =
  bytes_eqb [b24; b25; b26] spec_oui.
Proof.
  change (Ascii.eqb "0" (hex_hi b24) && (Ascii.eqb "0" (hex_lo b24) &&
         (Ascii.eqb "8" (hex_hi b25) && (Ascii.eqb "0" (hex_lo b25) &&
         (Ascii.eqb "A" (hex_hi b26) && (Ascii.eqb "3" (hex_lo b26) && true))))) =
          bytes_eqb [b24; b25; b26] spec_oui).
  rewrite hex_is_A3, hex_is_80, hex_is_00. reflexivity.
Qed.

Lemma parse_one data address rest :
  parse_responses ((data, address) :: rest) =
  (if spec_reply_valid data
   then [{| MAC := spec_format_mac (firstn 6 (skipn 24 data)); IP := fst address |}]
   else []) ++ parse_responses rest.
Proof.
  cbn [parse_responses]. unfold spec_reply_valid.
  destruct (Nat.eqb_spec (List.length data) LANTRONIX_RESPONSE_SIZE) as [Hl|Hl].
  - unfold LANTRONIX_RESPONSE_SIZE in Hl.
    do 30 (destruct data as [|? data]; [discriminate|]).
    destruct data; [|discriminate].
    rewrite mac_of_payload_30. cbn [negb Nat.eqb List.length firstn skipn andb].
    unfold LAMNTONIX_MAC_PREFIX in *. rewrite prefix_is_oui.
    destruct (bytes_eqb _ _); reflexivity.
  - apply Nat.eqb_neq in Hl. unfold LANTRONIX_RESPONSE_SIZE in Hl.
    rewrite Hl. reflexivity.
Qed.

(** C8: [parse_responses] keeps exactly the replies of 30 bytes whose
    bytes 24..26 are the OUI [00 80 A3], in order, each as the MAC of
    bytes 24..29 (two uppercase hex digits per byte, [:]-separated) and the
    sender's IP; it drops every other reply. *)
Theorem C8_parse_responses_filter (response_list : list Datagram) :
  parse_responses response_list = spec_parse response_list.
Proof.
  induction response_list as [|[data address] rest IH]; [reflexivity|].
  rewrite parse_one, IH. unfold spec_parse. cbn [filter].
  destruct (spec_reply_valid data); reflexivity.
Qed.

End LantronixFacts.

Module LantronixScanFacts.
Import Lantronix.

(** A device the scan returns comes from the parsed replies of one of the
    interfaces. *)
Lemma discover_loop_ok_in (send_udp_broadcast : str -> result (list Datagram))
    (ifaces : list (str * str)) (probed : list str) devs dev :
  fst (discover_loop send_udp_broadcast ifaces probed) = Ok devs -> In dev devs ->
  exists iface responses, In iface ifaces /\
    send_udp_broadcast (snd iface) = Ok responses /\
    In dev (parse_responses responses).
Proof.
  revert probed. induction ifaces as [|[name ip] rest IH]; intros probed; simpl.
  - intros H. injection H as <-. intros [].
  - assert (Hrest : fst (discover_loop send_udp_broadcast rest (probed ++ [ip])) = Ok devs ->
                    In dev devs ->
                    exists iface responses, ((name, ip) = iface \/ In iface rest) /\
                      send_udp_broadcast (snd iface) = Ok responses /\
                      In dev (parse_responses responses)).
    { intros H Hin. destruct (IH _ H Hin) as [iface [rs [H1 H2]]].
      exists iface, rs. split; [right; exact H1|exact H2]. }
    destruct (send_udp_broadcast ip) as [rs|e] eqn:Hs; [|discriminate].
    destruct rs as [|d ds]; [exact Hrest|].
    destruct (parse_responses (d :: ds)) as [|dev0 devs0] eqn:Hp; [exact Hrest|].
    simpl. intros H. injection H as <-. intros Hin.
    exists (name, ip), (d :: ds). split; [left; reflexivity|].
    split; [exact Hs|]. rewrite Hp. exact Hin.
Qed.

(** Two interfaces, each with one Lantronix device answering. *)
Definition nv_reply (b29 : Byte.byte) : list Byte.byte :=
  repeat Byte.x00 24 ++ [Byte.x00; Byte.x80; Byte.xa3; Byte.x79; Byte.xc6; b29].

Definition two_networks (local_ip : str) : result (list Datagram) :=
  if Waveform.str_eqb local_ip (lit "192.168.1.10") then
    Ok [(nv_reply Byte.x18, (lit "192.168.1.50", 30718%Z))]
  else if Waveform.str_eqb local_ip (lit "10.0.0.5") then
    Ok [(nv_reply Byte.x19, (lit "10.0.0.60", 30718%Z))]
  else Ok [].

Definition two_ifaces : list (str * str) :=
  [(lit "eth0", lit "192.168.1.10"); (lit "eth1", lit "10.0.0.5")].

(** C7 (code bug): the docstring of [discover_lantronix_devices] promises
    a scan "from all active Ethernet interfaces", and the asynchronous
    variant in [lantronix_xport] returns the devices of all interfaces. With
    two interfaces, each with a device answering, the scan returns only the
    device of the first interface, and the second interface is never
    probed; the union over the interfaces has both devices. *)
Lemma C7_union_counterexample :
  fst (discover_lantronix_devices two_networks two_ifaces) =
    Ok [{| MAC := lit "00:80:A3:79:C6:18"; IP := lit "192.168.1.50" |}] /\
  snd (discover_lantronix_devices two_networks two_ifaces) = [lit "192.168.1.10"] /\
  spec_union_scan two_networks two_ifaces =
    Ok [{| MAC := lit "00:80:A3:79:C6:18"; IP := lit "192.168.1.50" |};
        {| MAC := lit "00:80:A3:79:C6:19"; IP := lit "10.0.0.60" |}].
Proof. repeat split; vm_compute; reflexivity. Qed.

End LantronixScanFacts.


(* ------------------------------------------------------------------ *)
(** ** What a command sequence writes to the link *)

Module LinkFacts.
Import Wire Client.

(** [m] appends [cmds] to the link, whatever its outcome. *)
Definition appends {A} (m : M A) (cmds : list str) : Prop :=
  forall l r l', m l = (r, l') -> sent l' = sent l ++ cmds.

(** [m] appends [cmds] to the link when it returns normally. *)
Definition appends_ok {A} (m : M A) (cmds : list str) : Prop :=
  forall l a l', m l = (Ok a, l') -> sent l' = sent l ++ cmds.

Lemma appends_ok_of {A} (m : M A) cmds : appends m cmds -> appends_ok m cmds.
Proof. intros H l a l' E. exact (H l (Ok a) l' E). Qed.

Lemma write_appends cmd : appends (write cmd) [cmd ++ [CR]].
Proof.
  intros [s p] r l'. unfold write, mbind, transport_write, wait_for_response. simpl.
  destruct p as [|x rest]; simpl.
  - intros H; injection H as _ <-; reflexivity.
  - destruct (delay_ms x <? WRITE_TIMEOUT_MS)%Z; simpl;
      intros H; injection H as _ <-; reflexivity.
Qed.

Lemma read_appends cmd t : appends (read cmd t) [cmd ++ [CR]].
Proof.
  intros [s p] r l'. unfold read, mbind, transport_write, wait_for_response. simpl.
  destruct p as [|x rest]; simpl.
  - intros H; injection H as _ <-; reflexivity.
  - destruct (delay_ms x <? t)%Z; simpl;
      intros H; injection H as _ <-; reflexivity.
Qed.

Lemma ret_appends {A} (a : A) : appends (ret a) [].
Proof. intros l r l' H. injection H as _ <-. rewrite app_nil_r. reflexivity. Qed.

Lemma lift_appends {A} (r0 : result A) : appends (lift r0) [].
Proof. intros l r l' H. injection H as _ <-. rewrite app_nil_r. reflexivity. Qed.

Lemma raise_appends {A} e : appends (@raise A e) [].
Proof. intros l r l' H. injection H as _ <-. rewrite app_nil_r. reflexivity. Qed.

Lemma bind_appends_ok {A B} (m : M A) (k : A -> M B) c1 c2 cs :
  appends_ok m c1 -> (forall a, appends_ok (k a) c2) -> cs = c1 ++ c2 ->
  appends_ok (mbind m k) cs.
Proof.
  intros H1 H2 -> l b l2 E. unfold mbind in E.
  destruct (m l) as [[a|e] l1] eqn:Em; [|discriminate].
  rewrite (H2 a l1 b l2 E), (H1 l a l1 Em), app_assoc. reflexivity.
Qed.

Lemma bind_appends {A B} (m : M A) (k : A -> M B) c1 c2 cs :
  appends m c1 -> (forall a, appends (k a) c2) -> cs = c1 ++ c2 ->
  (forall l e l', m l = (Err e, l') -> False) ->
  appends (mbind m k) cs.
Proof.
  intros H1 H2 -> Hne l b l2 E. unfold mbind in E.
  destruct (m l) as [[a|e] l1] eqn:Em; [|exfalso; exact (Hne _ _ _ Em)].
  rewrite (H2 a l1 b l2 E), (H1 l (Ok a) l1 Em), app_assoc. reflexivity.
Qed.

Lemma read_response_appends cmd t : appends_ok (read_response cmd t) [cmd ++ [CR]].
Proof.
  unfold read_response. eapply bind_appends_ok.
  - apply appends_ok_of, read_appends.
  - intros a. apply appends_ok_of, lift_appends.
  - rewrite app_nil_r. reflexivity.
Qed.

Lemma read_values_appends cmd t : appends_ok (read_values cmd t) [cmd ++ [CR]].
Proof.
  unfold read_values. eapply bind_appends_ok.
  - apply read_response_appends.
  - intros [[c ps]|]; [apply appends_ok_of, ret_appends|apply appends_ok_of, raise_appends].
  - rewrite app_nil_r. reflexivity.
Qed.

Lemma read_int_value_appends cmd : appends_ok (read_int_value cmd) [cmd ++ [CR]].
Proof.
  unfold read_int_value. eapply bind_appends_ok.
  - apply read_values_appends.
  - intros [|v vs]; [apply appends_ok_of, raise_appends|apply appends_ok_of, lift_appends].
  - rewrite app_nil_r. reflexivity.
Qed.

Lemma lift_ok_inv {A} (r : result A) l a l1 : lift r l = (Ok a, l1) -> r = Ok a /\ l1 = l.
Proof. unfold lift. intros H. injection H as -> ->. split; reflexivity. Qed.

(** A link with no reply pending: every [write] times out, every [read]
    fails. *)
Definition idle_link : Link := {| sent := []; pending := [] |}.

Ltac appends_ok_step :=
  match goal with
  | |- appends_ok (mbind _ _) _ => eapply bind_appends_ok
  | |- appends_ok (write _) _ => apply appends_ok_of, write_appends
  | |- appends_ok (read _ _) _ => apply appends_ok_of, read_appends
  | |- appends_ok (read_values _ _) _ => apply read_values_appends
  | |- appends_ok (read_int_value _) _ => apply read_int_value_appends
  | |- appends_ok (ret _) _ => apply appends_ok_of, ret_appends
  | |- appends_ok (lift _) _ => apply appends_ok_of, lift_appends
  | |- appends_ok (raise _) _ => apply appends_ok_of, raise_appends
  end.

Ltac appends_ok_solve :=
  repeat (appends_ok_step || match goal with |- forall _, _ => intro end);
  try (simpl; rewrite ?app_nil_r, <- ?app_assoc; reflexivity).

End LinkFacts.

(* ------------------------------------------------------------------ *)
(** ** Decoding a normal reply *)

Module ParseFacts.
Import Wire Client.

Definition comma_free (s : str) : Prop := ~ In ","%char s.

(** The text of a reply with a command part [c] and fields [ps]:
    [c,p1,p2,...]. *)
Definition fields_text (c : str) (ps : list str) : str :=
  c ++ flat_map (fun p => ","%char :: p) ps.

Lemma ascii_eqb_comma a : a <> ","%char -> Ascii.eqb a ","%char = false.
Proof. intros H. apply Ascii.eqb_neq. exact H. Qed.

Lemma split1_comma_free c : comma_free c -> split1 ","%char c = [c].
Proof.
  induction c as [|a c IH]; intros H; [reflexivity|]. simpl.
  rewrite ascii_eqb_comma by (intros ->; apply H; left; reflexivity).
  rewrite IH by (intros Hin; apply H; right; exact Hin). reflexivity.
Qed.

Lemma split1_at_comma c r : comma_free c -> split1 ","%char (c ++ ","%char :: r) = [c; r].
Proof.
  induction c as [|a c IH]; intros H; [reflexivity|]. simpl.
  rewrite ascii_eqb_comma by (intros ->; apply H; left; reflexivity).
  rewrite IH by (intros Hin; apply H; right; exact Hin). reflexivity.
Qed.

Lemma split_nonempty r : split ","%char r <> [].
Proof.
  destruct r as [|a r]; simpl; [discriminate|].
  destruct (Ascii.eqb a ","%char); [discriminate|].
  destruct (split ","%char r); discriminate.
Qed.

Lemma split_app_comma_free p r : comma_free p ->
  split ","%char (p ++ r) = (p ++ hd [] (split ","%char r)) :: tl (split ","%char r).
Proof.
  induction p as [|a p IH]; intros Hp; simpl.
  - destruct (split ","%char r) eqn:E; [exfalso; exact (split_nonempty r E)|]. reflexivity.
  - rewrite ascii_eqb_comma by (intros ->; apply Hp; left; reflexivity).
    rewrite IH by (intros Hin; apply Hp; right; exact Hin). reflexivity.
Qed.

Lemma split_fields ps : Forall comma_free ps ->
  forall p, comma_free p -> split ","%char (fields_text p ps) = p :: ps.
Proof.
  unfold fields_text.
  induction ps as [|q qs IHps]; intros Hps p Hp;
    rewrite split_app_comma_free by exact Hp.
  - simpl. rewrite !app_nil_r. reflexivity.
  - inversion Hps; subst. simpl flat_map. cbn [split Ascii.eqb].
    replace (Ascii.eqb ","%char ","%char) with true by reflexivity.
    cbn [hd tl]. rewrite (IHps H2 q H1), app_nil_r. reflexivity.
Qed.

Lemma startswith_before p c x r : ~ In x p -> startswith p (c ++ x :: r) = startswith p c.
Proof.
  revert c. induction p as [|a p IH]; intros c H; [destruct c; reflexivity|].
  destruct c as [|b c]; simpl.
  - destruct (Ascii.eqb_spec a x) as [->|]; [exfalso; apply H; left; reflexivity|].
    reflexivity.
  - rewrite IH by (intros Hin; apply H; right; exact Hin). reflexivity.
Qed.

Lemma comma_free_of_existsb s :
  existsb (fun a => Ascii.eqb a ","%char) s = false -> comma_free s.
Proof.
  intros H Hin. assert (Ht : existsb (fun a => Ascii.eqb a ","%char) s = true).
  { apply existsb_exists. exists ","%char. split; [exact Hin|apply Ascii.eqb_refl]. }
  rewrite H in Ht. discriminate.
Qed.

Lemma error_comma_free : ~ In ","%char (lit "error").
Proof. unfold lit. simpl. intros H. repeat destruct H as [H|H]; try discriminate; exact H. Qed.

(** A reply [c,p1,...,pn] that does not start with [error] parses into
    the stripped command part and the fields, each stripped of control
    characters. *)
Lemma parse_fields c ps :
  comma_free c -> Forall comma_free ps -> startswith (lit "error") c = false ->
  parse_response (fields_text c ps) =
    Ok (Some (strip whitespace c, map (strip ctrl_chars) ps)).
Proof.
  intros Hc Hps He. unfold parse_response, fields_text.
  destruct ps as [|q qs].
  - simpl flat_map. rewrite app_nil_r, He, split1_comma_free by exact Hc. reflexivity.
  - simpl flat_map. rewrite startswith_before, He by exact error_comma_free.
    rewrite split1_at_comma by exact Hc. cbn -[split strip].
    inversion Hps; subst. change (q ++ flat_map (fun p => ","%char :: p) qs)
      with (fields_text q qs). rewrite split_fields by assumption. reflexivity.
Qed.

End ParseFacts.

Module ReadFacts.
Import Wire Client ParseFacts.

(** X1: [read_values] on a reply [c,p1,...,pn] that arrives before the timeout,
    whose command part [c] does not start with [error] and whose parts hold
    no comma: it returns the fields [p1 ... pn], each stripped of control
    characters, after writing [cmd] and a carriage return, and the reply
    leaves the queue. *)
Theorem read_values_fields (cmd : str) (t : Z) (l : Link) (r : Reply) (rest : list Reply)
    (c : str) (ps : list str) :
  pending l = r :: rest -> (delay_ms r < t)%Z ->
  data r = fields_text c ps ->
  comma_free c -> Forall comma_free ps -> startswith (lit "error") c = false ->
  read_values cmd t l =
    (Ok (map (strip ctrl_chars) ps), {| sent := sent l ++ [cmd ++ [CR]]; pending := rest |}).
Proof.
  intros Hp Hd Hdata Hc Hps He. destruct l as [s p]; simpl in Hp; subst p.
  unfold read_values, read_response, read, mbind, transport_write, wait_for_response,
    lift, ret. cbn [pending sent].
  rewrite (proj2 (Z.ltb_lt _ _) Hd), Hdata, parse_fields by assumption.
  reflexivity.
Qed.

(** A reply [stat,5] to [stat]. *)
Definition stat_reply : Reply := {| delay_ms := 5; data := lit "stat,5" |}.
Definition stat_link : Link := {| sent := []; pending := [stat_reply] |}.

Lemma read_values_fields_witness :
  read_values (lit "stat") DEFAULT_TIMEOUT_MS stat_link =
    (Ok (map (strip ctrl_chars) [lit "5"]),
     {| sent := sent stat_link ++ [lit "stat" ++ [CR]]; pending := [] |}).
Proof.
  apply (read_values_fields (lit "stat") DEFAULT_TIMEOUT_MS stat_link stat_reply []
           (lit "stat") [lit "5"]).
  - reflexivity.
  - reflexivity.
  - vm_compute. reflexivity.
  - apply comma_free_of_existsb. reflexivity.
  - constructor; [apply comma_free_of_existsb; reflexivity|constructor].
  - vm_compute. reflexivity.
Defined.

(** X2: [read_int_value] on such a reply: the integer parsed from the first
    field after the command part, or [IndexError] when the reply has no such
    field; the command is written and the reply leaves the queue in both
    cases. *)
Theorem read_int_value_first_field (cmd : str) (l : Link) (r : Reply) (rest : list Reply)
    (c : str) (ps : list str) :
  pending l = r :: rest -> (delay_ms r < DEFAULT_TIMEOUT_MS)%Z ->
  data r = fields_text c ps ->
  comma_free c -> Forall comma_free ps -> startswith (lit "error") c = false ->
  read_int_value cmd l =
    (match ps with
     | p :: _ => py_int_of_str (strip ctrl_chars p)
     | [] => Err IndexError
     end, {| sent := sent l ++ [cmd ++ [CR]]; pending := rest |}).
Proof.
  intros Hp Hd Hdata Hc Hps He. destruct l as [s p]; simpl in Hp; subst p.
  unfold read_int_value, read_values, read_response, read, mbind, transport_write,
    wait_for_response, lift, ret, raise. cbn [pending sent].
  rewrite (proj2 (Z.ltb_lt _ _) Hd), Hdata, parse_fields by assumption.
  destruct ps; reflexivity.
Qed.

Lemma read_int_value_first_field_witness :
  read_int_value (lit "stat") stat_link =
    (Ok 5%Z, {| sent := [lit "stat" ++ [CR]]; pending := [] |}).
Proof.
  rewrite (read_int_value_first_field (lit "stat") stat_link stat_reply [] (lit "stat") [lit "5"]).
  - vm_compute. reflexivity.
  - reflexivity.
  - reflexivity.
  - vm_compute. reflexivity.
  - apply comma_free_of_existsb. reflexivity.
  - constructor; [apply comma_free_of_existsb; reflexivity|constructor].
  - vm_compute. reflexivity.
Defined.

End ReadFacts.


Module StatusFacts.
Import Client Status.

(** X3: [get_sensor_type] depends on bits 1 and 2 of the status value only:
    neither set gives "No position sensor", bit 1 alone "Strain gauge
    sensor", bit 2 alone "Capacitive sensor", both "Unknown". *)
Theorem get_sensor_type_bits (value : Z) :
  get_sensor_type value =
    match Z.testbit value 1, Z.testbit value 2 with
    | false, false => lit "No position sensor"
    | true, false => lit "Strain gauge sensor"
    | false, true => lit "Capacitive sensor"
    | true, true => lit "Unknown"
    end.
Proof.
  assert (Hland : Z.land value 6 = Z.land (value mod 8) 6).
  { change (Z.land value 6) with (Z.land value (Z.land 7 6)).
    rewrite Z.land_assoc. change 7%Z with (Z.ones 3).
    rewrite Z.land_ones by lia. reflexivity. }
  assert (Hbit : forall n, (0 <= n < 3)%Z -> Z.testbit value n = Z.testbit (value mod 8) n).
  { intros n Hn. change 8%Z with (2 ^ 3)%Z. rewrite Z.mod_pow2_bits_low by lia.
    reflexivity. }
  unfold get_sensor_type. cbn [flag_value].
  change (Z.lor (Z.shiftl 1 1) (Z.shiftl 1 2)) with 6%Z.
  rewrite Hland, (Hbit 1%Z), (Hbit 2%Z) by lia.
  assert (Hb : (0 <= value mod 8 < 8)%Z) by (apply Z.mod_pos_bound; lia).
  remember (value mod 8)%Z as b eqn:Eb.
  assert (Hcase : b = 0%Z \/ b = 1%Z \/ b = 2%Z \/ b = 3%Z \/ b = 4%Z \/
                  b = 5%Z \/ b = 6%Z \/ b = 7%Z) by lia.
  destruct Hcase as [->|[->|[->|[->|[->|[->|[->| ->]]]]]]]; reflexivity.
Qed.

Definition flag_bit (f : StatusFlags) : Z :=
  match f with
  | ACTUATOR_CONNECTED => 0
  | SENSOR_TYPE_0 => 1
  | SENSOR_TYPE_1 => 2
  | CLOSED_LOOP_MODE => 3
  | LOW_PASS_FILTER_ON => 4
  | NOTCH_FILTER_ON => 5
  | SIGNAL_PROCESSING_ACTIVE => 7
  | AMPLIFIER_CHANNELS_BRIDGED => 8
  | TEMPERATURE_TOO_HIGH => 10
  | ACTUATOR_ERROR => 11
  | HARDWARE_ERROR => 12
  | I2C_ERROR => 13
  | LOWER_CONTROL_LIMIT_REACHED => 14
  | UPPER_CONTROL_LIMIT_REACHED => 15
  end%Z.

Lemma flag_value_pow f : flag_value f = (2 ^ flag_bit f)%Z.
Proof. destruct f; reflexivity. Qed.

Lemma flag_bit_nonneg f : (0 <= flag_bit f)%Z.
Proof. destruct f; simpl; lia. Qed.

Lemma land_pow2 n k : (0 <= k)%Z ->
  negb (Z.land n (2 ^ k) =? 0)%Z = Z.testbit n k.
Proof.
  intros Hk. destruct (Z.testbit n k) eqn:E.
  - destruct (Z.eqb_spec (Z.land n (2 ^ k)) 0) as [H0|H0]; [|reflexivity].
    exfalso. assert (Ht : Z.testbit (Z.land n (2 ^ k)) k = true).
    { rewrite Z.land_spec, E, Z.pow2_bits_true by lia. reflexivity. }
    rewrite H0, Z.bits_0 in Ht. discriminate.
  - replace (Z.land n (2 ^ k)) with 0%Z; [reflexivity|].
    symmetry. apply Z.bits_inj_0. intros j.
    rewrite Z.land_spec. destruct (Z.eq_dec j k) as [->|Hj]; [rewrite E; reflexivity|].
    destruct (Z.testbit n j); [|reflexivity]. simpl.
    destruct (Z_lt_le_dec j 0) as [Hj0|Hj0]; [apply Z.testbit_neg_r; lia|].
    rewrite Z.pow2_bits_eqb by lia. apply Z.eqb_neq. lia.
Qed.

(** X4: [is_status_flag_set flag] reads [stat] once and answers whether the
    bit of [flag] (bit 0 to 5, 7, 8 or 10 to 15) is set in the value read;
    an error of the read propagates unchanged. *)
Theorem is_status_flag_set_bit (flag : StatusFlags) (l : Link) :
  is_status_flag_set flag l =
    match read_int_value (lit "stat") l with
    | (Ok n, l') => (Ok (Z.testbit n (flag_bit flag)), l')
    | (Err e, l') => (Err e, l')
    end.
Proof.
  unfold is_status_flag_set, get_status_register, mbind, ret.
  destruct (read_int_value (lit "stat") l) as [[n|e] l']; [|reflexivity].
  unfold has_flag, make_status_register. cbn [flags].
  rewrite flag_value_pow, land_pow2 by apply flag_bit_nonneg. reflexivity.
Qed.

End StatusFacts.


Module PidFacts.
Import Wire Client Pid LinkFacts.

Lemma move_to_position_appends fmt p :
  appends_ok (move_to_position fmt p) [lit "cl,1" ++ [CR]; lit "set," ++ fmt p ++ [CR]].
Proof. unfold move_to_position, set_pid_mode, set_setpoint. appends_ok_solve. Qed.

Lemma move_to_voltage_appends fmt v :
  appends_ok (move_to_voltage fmt v) [lit "cl,0" ++ [CR]; lit "set," ++ fmt v ++ [CR]].
Proof. unfold move_to_voltage, set_pid_mode, set_setpoint. appends_ok_solve. Qed.

(** X5: [move_to_position x] writes [cl,1] then [set,x] to the device, and
    [move_to_voltage x] writes [cl,0] then [set,x], and nothing else, when
    they return normally. *)
Theorem move_commands (py_str_of_float : float -> str) (x : float) :
  (forall l l' u, move_to_position py_str_of_float x l = (Ok u, l') ->
     sent l' = sent l ++ [lit "cl,1" ++ [CR]; lit "set," ++ py_str_of_float x ++ [CR]]) /\
  (forall l l' u, move_to_voltage py_str_of_float x l = (Ok u, l') ->
     sent l' = sent l ++ [lit "cl,0" ++ [CR]; lit "set," ++ py_str_of_float x ++ [CR]]).
Proof.
  split; intros l l' u H.
  - exact (move_to_position_appends py_str_of_float x l u l' H).
  - exact (move_to_voltage_appends py_str_of_float x l u l' H).
Qed.

Lemma move_commands_witness :
  sent (snd (move_to_position (fun _ => lit "1.5") 1.5%float idle_link)) =
    [lit "cl,1" ++ [CR]; lit "set,1.5" ++ [CR]].
Proof.
  apply (proj1 (move_commands (fun _ => lit "1.5") 1.5%float) idle_link _ tt).
  vm_compute. reflexivity.
Defined.

Lemma write_error cmd l r rest e :
  pending l = r :: rest -> (delay_ms r < WRITE_TIMEOUT_MS)%Z ->
  parse_response (data r) = Err e ->
  write cmd l = (Err e, {| sent := sent l ++ [cmd ++ [CR]]; pending := rest |}).
Proof.
  intros Hp Hd He. destruct l as [s p]; simpl in Hp; subst p.
  unfold write, mbind, transport_write, wait_for_response. cbn [pending sent].
  rewrite (proj2 (Z.ltb_lt _ _) Hd), He. reflexivity.
Qed.

(** X6: When the device answers the mode command with an error reply,
    [move_to_position] and [move_to_voltage] raise that error after writing
    only the mode command: the setpoint is never sent. *)
Theorem move_mode_error (py_str_of_float : float -> str) (x : float) (l : Link)
    (r : Reply) (rest : list Reply) (e : exn) :
  pending l = r :: rest -> (delay_ms r < WRITE_TIMEOUT_MS)%Z ->
  parse_response (data r) = Err e ->
  move_to_position py_str_of_float x l =
    (Err e, {| sent := sent l ++ [lit "cl,1" ++ [CR]]; pending := rest |}) /\
  move_to_voltage py_str_of_float x l =
    (Err e, {| sent := sent l ++ [lit "cl,0" ++ [CR]]; pending := rest |}).
Proof.
  intros Hp Hd He.
  unfold move_to_position, move_to_voltage, set_pid_mode, mbind at 1 2 3 4.
  rewrite !(write_error _ l r rest e Hp Hd He). split; reflexivity.
Qed.

Definition error_reply : Reply := {| delay_ms := 5; data := lit "error,3" |}.
Definition error_link : Link := {| sent := []; pending := [error_reply] |}.

Lemma move_mode_error_witness :
  move_to_position (fun _ => lit "1.5") 1.5%float error_link =
    (Err (DeviceErrorExn 3), {| sent := sent error_link ++ [lit "cl,1" ++ [CR]]; pending := [] |}) /\
  move_to_voltage (fun _ => lit "1.5") 1.5%float error_link =
    (Err (DeviceErrorExn 3), {| sent := sent error_link ++ [lit "cl,0" ++ [CR]]; pending := [] |}).
Proof.
  apply (move_mode_error (fun _ => lit "1.5") 1.5%float error_link error_reply []
           (DeviceErrorExn 3)); [reflexivity|reflexivity|vm_compute; reflexivity].
Defined.

End PidFacts.

Module RecorderDataFacts.
Import Wire Client Recorder RecorderData LinkFacts RecorderFacts.


(** X7: When [set_recording_duration_ms] returns the parameters [p], it has
    written exactly [recstr,<stride p>] then [reclen,<bufsize p>], and the
    buffer size is between 1 and the recorder's 6144 samples. *)
Theorem recording_duration_commands (milliseconds : float) (l l' : Link) (p : RecorderParam) :
  set_recording_duration_ms milliseconds l = (Ok p, l') ->
  sent l' = sent l ++ [lit "recstr," ++ py_str_of_int (stride p) ++ [CR];
                       lit "reclen," ++ py_str_of_int (bufsize p) ++ [CR]] /\
  (1 <= bufsize p <= NV200_RECORDER_BUFFER_SIZE)%Z.
Proof.
  unfold set_recording_duration_ms. intros H.
  apply mbind_ok_inv in H as [bd [l1 [E1 H]]]. apply lift_ok_inv in E1 as [_ ->].
  apply mbind_ok_inv in H as [q [l1 [E1 H]]]. apply lift_ok_inv in E1 as [_ ->].
  apply mbind_ok_inv in H as [sr [l1 [E1 H]]]. apply lift_ok_inv in E1 as [_ ->].
  apply mbind_ok_inv in H as [c [l1 [E1 H]]]. apply lift_ok_inv in E1 as [_ ->].
  apply mbind_ok_inv in H as [u1 [l1 [E1 H]]].
  apply mbind_ok_inv in H as [u2 [l2 [E2 H]]].
  injection H as <- <-. cbn [bufsize stride].
  assert (Hs : sent l1 = sent l ++ [lit "recstr," ++ py_str_of_int (q + 1) ++ [CR]]).
  { assert (Ha : appends_ok (set_recorder_stride (q + 1))
                    [lit "recstr," ++ py_str_of_int (q + 1) ++ [CR]]).
    { unfold set_recorder_stride. appends_ok_solve. }
    exact (Ha _ _ _ E1). }
  revert E2. unfold set_sample_buffer_size.
  destruct ((1 <=? Z.min c NV200_RECORDER_BUFFER_SIZE)%Z &&
            (Z.min c NV200_RECORDER_BUFFER_SIZE <=? NV200_RECORDER_BUFFER_SIZE)%Z) eqn:Eb;
    [|unfold raise; discriminate].
  apply andb_true_iff in Eb as [Eb1 Eb2]. apply Z.leb_le in Eb1. apply Z.leb_le in Eb2.
  intros E2. split; [|lia].
  assert (Hs2 : appends_ok (write (lit "reclen," ++ py_str_of_int (Z.min c NV200_RECORDER_BUFFER_SIZE)) ;;; ret tt)
                  [lit "reclen," ++ py_str_of_int (Z.min c NV200_RECORDER_BUFFER_SIZE) ++ [CR]]).
  { appends_ok_solve. }
  rewrite (Hs2 _ _ _ E2), Hs, <- app_assoc. reflexivity.
Qed.

Definition rec100_param : RecorderParam := {| bufsize := 2000; stride := 1; sample_freq := 20000 |}.
Definition rec100_link : Link :=
  {| sent := [lit "recstr,1" ++ [CR]; lit "reclen,2000" ++ [CR]]; pending := [] |}.

Lemma recording_duration_commands_witness :
  sent rec100_link = sent idle_link ++
    [lit "recstr," ++ py_str_of_int (stride rec100_param) ++ [CR];
     lit "reclen," ++ py_str_of_int (bufsize rec100_param) ++ [CR]] /\
  (1 <= bufsize rec100_param <= NV200_RECORDER_BUFFER_SIZE)%Z.
Proof.
  apply (recording_duration_commands 100%float idle_link rec100_link rec100_param).
  vm_compute. reflexivity.
Defined.

Lemma float_eqb_zero x : (x =? 0)%float = true -> x = 0%float \/ x = (-0)%float.
Proof.
  rewrite eqb_spec. intros H. rewrite <- (SF2Prim_Prim2SF x).
  destruct (Prim2SF x) as [s|s| |s m e]; try (destruct s); try discriminate.
  - right. reflexivity.
  - left. reflexivity.
Qed.

(** X8: A duration of 0 ms (or -0.0): [set_recording_duration_ms] writes the
    stride command [recstr,1] and then raises [ValueError]. *)
Theorem recording_duration_zero (milliseconds : float) (l : Link) :
  (milliseconds =? 0)%float = true ->
  set_recording_duration_ms milliseconds l = (write (lit "recstr,1") ;;; raise ValueError) l.
Proof.
  intros H. destruct (float_eqb_zero _ H) as [->| ->];
    cbv -[write]; destruct (write _ l) as [[a|e] l']; reflexivity.
Qed.

Lemma recording_duration_zero_witness :
  set_recording_duration_ms 0%float idle_link = (write (lit "recstr,1") ;;; raise ValueError) idle_link.
Proof. apply recording_duration_zero. reflexivity. Defined.

Lemma get_source_of_value (value : Z) : get_source value = DataRecorderSource_of_value value.
Proof.
  unfold get_source, DataRecorderSource_of_value. cbn [find source_members source_value].
  rewrite !(Z.eqb_sym _ value).
  repeat match goal with |- context [(value =? ?k)%Z] => destruct (value =? k)%Z end;
    reflexivity.
Qed.

Lemma of_value_not_member (value : Z) :
  (forall s, source_value s <> value) -> DataRecorderSource_of_value value = Err ValueError.
Proof.
  intros H. rewrite <- get_source_of_value. unfold get_source.
  destruct (find _ source_members) as [s|] eqn:E; [|reflexivity].
  apply find_some in E as [_ E]. apply Z.eqb_eq in E. exfalso. exact (H s E).
Qed.

(** X9: [DataRecorderSource.get_source] is the enum's own lookup by value:
    it returns the member with that value, and [ValueError] when no member
    has it; [RecorderAutoStartMode.get_mode] likewise. *)
Theorem enum_lookup_by_value :
  (forall value, get_source value = DataRecorderSource_of_value value) /\
  (forall value s, get_source value = Ok s <-> source_value s = value) /\
  (forall value, (forall s, source_value s <> value) -> get_source value = Err ValueError) /\
  (forall value m, get_mode value = Ok m <-> mode_value m = value) /\
  (forall value, (forall m, mode_value m <> value) -> get_mode value = Err ValueError).
Proof.
  split; [exact get_source_of_value|].
  split; [|split; [|split]].
  - intros value s. unfold get_source. split.
    + destruct (find _ source_members) as [s'|] eqn:E; [|discriminate].
      intros Hs. injection Hs as <-. apply find_some in E as [_ E]. apply Z.eqb_eq, E.
    + intros <-. destruct s; reflexivity.
  - intros value H. unfold get_source.
    destruct (find _ source_members) as [s|] eqn:E; [|reflexivity].
    apply find_some in E as [_ E]. apply Z.eqb_eq in E. exfalso. exact (H s E).
  - intros value m. unfold get_mode. split.
    + destruct (find _ mode_members) as [m'|] eqn:E; [|discriminate].
      intros Hm. injection Hm as <-. apply find_some in E as [_ E]. apply Z.eqb_eq, E.
    + intros <-. destruct m; reflexivity.
  - intros value H. unfold get_mode.
    destruct (find _ mode_members) as [m|] eqn:E; [|reflexivity].
    apply find_some in E as [_ E]. apply Z.eqb_eq in E. exfalso. exact (H m E).
Qed.

Lemma enum_lookup_by_value_witness : get_source 9 = Err ValueError /\ get_mode 9 = Err ValueError.
Proof.
  destruct enum_lookup_by_value as [_ [_ [H3 [_ H5]]]].
  split; [apply H3|apply H5]; intros []; discriminate.
Defined.

(** X10: When the device reports a recording source value that is no member
    of [DataRecorderSource], [read_recorded_data_of_channel] raises
    [ValueError] after the [recsrc] query, before asking for the data. *)
Theorem channel_unknown_source (py_float_of_str : str -> result float) (channel : Z)
    (l l1 : Link) (n : Z) :
  read_int_value (lit "recsrc," ++ py_str_of_int channel) l = (Ok n, l1) ->
  (forall s, source_value s <> n) ->
  read_recorded_data_of_channel py_float_of_str channel l = (Err ValueError, l1) /\
  sent l1 = sent l ++ [lit "recsrc," ++ py_str_of_int channel ++ [CR]].
Proof.
  intros E Hn. split.
  - unfold read_recorded_data_of_channel. rewrite (mbind_ok _ _ _ _ _ E).
    unfold mbind at 1, lift at 1. rewrite of_value_not_member by exact Hn. reflexivity.
  - rewrite (read_int_value_appends _ _ _ _ E), <- app_assoc. reflexivity.
Qed.

Definition recsrc9_link : Link :=
  {| sent := []; pending := [{| delay_ms := 5; Client.data := lit "recsrc,9" |}] |}.
Definition recsrc9_after : Link := {| sent := [lit "recsrc,0" ++ [CR]]; pending := [] |}.

Lemma channel_unknown_source_witness :
  read_recorded_data_of_channel (fun _ => Ok 0%float) 0 recsrc9_link =
    (Err ValueError, recsrc9_after) /\
  sent recsrc9_after = sent recsrc9_link ++ [lit "recsrc," ++ py_str_of_int 0 ++ [CR]].
Proof.
  apply (channel_unknown_source (fun _ => Ok 0%float) 0 recsrc9_link recsrc9_after 9).
  - vm_compute. reflexivity.
  - intros []; discriminate.
Defined.

Lemma channel_appends py_float_of_str channel :
  appends_ok (read_recorded_data_of_channel py_float_of_str channel)
    [lit "recsrc," ++ py_str_of_int channel ++ [CR];
     lit "recoutf," ++ py_str_of_int channel ++ [CR]].
Proof. unfold read_recorded_data_of_channel. appends_ok_solve. Qed.

(** X11: [read_recorded_data] returns two channels when it returns, and has
    written [recsrc,0], [recoutf,0], [recsrc,1], [recoutf,1] in this
    order. *)
Theorem read_recorded_data_commands (py_float_of_str : str -> result float)
    (l l' : Link) (chans : list ChannelRecordingData) :
  read_recorded_data py_float_of_str l = (Ok chans, l') ->
  List.length chans = 2%nat /\
  sent l' = sent l ++ [lit "recsrc,0" ++ [CR]; lit "recoutf,0" ++ [CR];
                       lit "recsrc,1" ++ [CR]; lit "recoutf,1" ++ [CR]].
Proof.
  intros H. split.
  - unfold read_recorded_data in H.
    apply mbind_ok_inv in H as [c0 [l1 [_ H]]].
    apply mbind_ok_inv in H as [c1 [l2 [_ H]]].
    injection H as <- _. reflexivity.
  - assert (Ha : appends_ok (read_recorded_data py_float_of_str)
                  [lit "recsrc,0" ++ [CR]; lit "recoutf,0" ++ [CR];
                   lit "recsrc,1" ++ [CR]; lit "recoutf,1" ++ [CR]]).
    { unfold read_recorded_data. eapply bind_appends_ok; [apply channel_appends| |].
      - intros c0. eapply bind_appends_ok; [apply channel_appends|appends_ok_solve|].
        reflexivity.
      - reflexivity. }
    exact (Ha _ _ _ H).
Qed.

Definition reply5 (s : string) : Reply := {| delay_ms := 5; Client.data := lit s |}.
Definition recording_link : Link :=
  {| sent := [];
     pending := [reply5 "recsrc,0"; reply5 "recoutf,0,1.5"; reply5 "recsrc,1";
                 reply5 "recoutf,1,2.5"] |}.

Lemma read_recorded_data_commands_witness :
  match read_recorded_data (fun _ => Ok 0%float) recording_link with
  | (Ok chans, l') =>
      List.length chans = 2%nat /\
      sent l' = sent recording_link ++ [lit "recsrc,0" ++ [CR]; lit "recoutf,0" ++ [CR];
                                        lit "recsrc,1" ++ [CR]; lit "recoutf,1" ++ [CR]]
  | (Err _, _) => False
  end.
Proof.
  destruct (read_recorded_data (fun _ => Ok 0%float) recording_link) as [[chans|e] l'] eqn:E.
  - exact (read_recorded_data_commands _ _ _ _ E).
  - vm_compute in E. discriminate.
Defined.

End RecorderDataFacts.


Module WaveformIOFacts.
Import Wire Client Waveform WaveformIO LinkFacts RecorderFacts WaveformFacts.

Definition spec_float_eqb (a b : spec_float) : bool :=
  match a, b with
  | S754_zero s, S754_zero s' => Bool.eqb s s'
  | S754_infinity s, S754_infinity s' => Bool.eqb s s'
  | S754_nan, S754_nan => true
  | S754_finite s m e, S754_finite s' m' e' => Bool.eqb s s' && Pos.eqb m m' && Z.eqb e e'
  | _, _ => false
  end.

Lemma spec_float_eqb_eq a b : spec_float_eqb a b = true -> a = b.
Proof.
  destruct a as [s|s| |s m e], b as [s'|s'| |s' m' e']; simpl; try discriminate;
    try (intros H; apply Bool.eqb_prop in H; subst; reflexivity); [reflexivity|].
  intros H. apply andb_true_iff in H as [H H3]. apply andb_true_iff in H as [H1 H2].
  apply Bool.eqb_prop in H1. apply Pos.eqb_eq in H2. apply Z.eqb_eq in H3. subst. reflexivity.
Qed.

Definition same_float (x y : float) : bool := spec_float_eqb (Prim2SF x) (Prim2SF y).

Lemma same_float_eq x y : same_float x y = true -> x = y.
Proof.
  intros H. apply spec_float_eqb_eq in H.
  rewrite <- (SF2Prim_Prim2SF x), <- (SF2Prim_Prim2SF y), H. reflexivity.
Qed.

(** The [sample_factor] property of a waveform whose sample time is
    [k * 50 / 1000] ms is [float(k)] or [float(k - 1)]. *)
Definition sample_factor_check (k : Z) : bool :=
  match py_int_truediv (k * 50) 1000 with
  | Ok st =>
      match waveform_sample_factor {| values := []; sample_time_ms := st |},
            py_float_of_int k, py_float_of_int (k - 1) with
      | Ok x, Ok a, Ok b => same_float x a || same_float x b
      | _, _, _ => false
      end
  | Err _ => false
  end.

Fixpoint all_from (f : Z -> bool) (k : Z) (n : nat) : bool :=
  match n with
  | O => true
  | S n' => f k && all_from f (k + 1) n'
  end.

Lemma all_from_spec f n : forall k, all_from f k n = true ->
  forall j, (k <= j < k + Z.of_nat n)%Z -> f j = true.
Proof.
  induction n as [|n IH]; intros k H j Hj; [lia|].
  simpl in H. apply andb_true_iff in H as [H1 H2].
  destruct (Z.eq_dec j k) as [->|Hne]; [exact H1|].
  apply (IH (k + 1)%Z H2). lia.
Qed.

Lemma sample_factor_check_all : all_from sample_factor_check 1 2048 = true.
Proof. vm_compute. reflexivity. Qed.

Lemma sine_timing_us f t : sine_timing f = Ok t -> sample_time_us t = (sample_factor t * 50)%Z.
Proof.
  unfold sine_timing. intros H.
  repeat match type of H with
  | bind ?r _ = _ => destruct r; cbn [bind] in H; [|discriminate]
  end.
  injection H as <-. reflexivity.
Qed.

Definition f0 : float := 0x1.f01fc07f01fc0p-5%float.

(** X12: The [sample_factor] property of a waveform from [generate_sine_wave]
    is [float(k)] or [float(k - 1)], [k] the sample factor the generator
    chose, for every [k] from 1 to 2048; for the frequency [f0] the
    generator chooses 323 and the property gives 322. *)
Theorem generated_sample_factor (math_sin : float -> float) :
  (forall f lo hi ph w t,
     generate_sine_wave math_sin f lo hi ph = Ok w -> sine_timing f = Ok t ->
     (1 <= sample_factor t <= 2048)%Z ->
     exists x, waveform_sample_factor w = Ok x /\
       (py_float_of_int (sample_factor t) = Ok x \/
        py_float_of_int (sample_factor t - 1) = Ok x)) /\
  (exists t, sine_timing f0 = Ok t /\ sample_factor t = 323%Z) /\
  (forall w, generate_sine_wave math_sin f0 0 1 0 = Ok w ->
     waveform_sample_factor w = Ok 322%float).
Proof.
  split; [|split].
  - intros f lo hi ph w t Hg Ht Hk.
    destruct (generate_shape math_sin f lo hi ph w Hg) as [t' [Ht' [_ Hst]]].
    rewrite Ht in Ht'. injection Ht' as <-.
    rewrite (sine_timing_us f t Ht) in Hst.
    pose proof (all_from_spec _ _ _ sample_factor_check_all (sample_factor t) ltac:(lia)) as Hc.
    unfold sample_factor_check in Hc. rewrite Hst in Hc.
    change (waveform_sample_factor w) with
      (waveform_sample_factor {| values := []; sample_time_ms := sample_time_ms w |}).
    destruct (waveform_sample_factor _) as [x|]; [|discriminate].
    destruct (py_float_of_int (sample_factor t)) as [a|]; [|discriminate].
    destruct (py_float_of_int (sample_factor t - 1)) as [b|]; [|discriminate].
    exists x. split; [reflexivity|].
    apply orb_true_iff in Hc as [Hc|Hc]; apply same_float_eq in Hc; subst;
      [left|right]; reflexivity.
  - eexists. split; [vm_compute; reflexivity|reflexivity].
  - intros w Hg.
    destruct (generate_shape math_sin f0 0 1 0 w Hg) as [t [Ht [_ Hst]]].
    change (waveform_sample_factor w) with
      (waveform_sample_factor {| values := []; sample_time_ms := sample_time_ms w |}).
    remember (sample_time_ms w) as st eqn:Est. clear Est.
    vm_compute in Ht. injection Ht as <-. vm_compute in Hst. injection Hst as <-.
    vm_compute. reflexivity.
Qed.

Lemma generated_sample_factor_witness :
  match generate_sine_wave (fun x => x) 10000%float 0 1 0, sine_timing 10000%float with
  | Ok w, Ok t =>
      exists x, waveform_sample_factor w = Ok x /\
        (py_float_of_int (sample_factor t) = Ok x \/
         py_float_of_int (sample_factor t - 1) = Ok x)
  | _, _ => False
  end.
Proof.
  destruct (generate_sine_wave (fun x => x) 10000%float 0 1 0) as [w|e] eqn:E1;
    [|vm_compute in E1; discriminate].
  destruct (sine_timing 10000%float) as [t|e] eqn:E2; [|vm_compute in E2; discriminate].
  apply (proj1 (generated_sample_factor (fun x => x)) _ 0%float 1%float 0%float w t E1 E2).
  pose proof E2 as E3. vm_compute in E3. injection E3 as <-. simpl. lia.
Defined.

End WaveformIOFacts.


Module WaveformBufferFacts.
Import Wire Client Waveform WaveformIO LinkFacts RecorderFacts.

(** The writes [gparb,index,value] of the values of [buffer], from [index]
    on, in order. *)
Fixpoint gparb_writes (py_str_of_float : float -> str) (index : Z) (buffer : list float)
    : M unit :=
  match buffer with
  | [] => ret tt
  | value :: rest =>
      write (lit "gparb," ++ py_str_of_int index ++ lit "," ++ py_str_of_float value) ;;;
      gparb_writes py_str_of_float (index + 1) rest
  end.

(** The commands the loop over [buffer] sends from [index] on. *)
Fixpoint gparb_cmds (py_str_of_float : float -> str) (index : Z) (buffer : list float)
    : list str :=
  match buffer with
  | [] => []
  | value :: rest =>
      (lit "gparb," ++ py_str_of_int index ++ lit "," ++ py_str_of_float value ++ [CR])
        :: gparb_cmds py_str_of_float (index + 1) rest
  end.

Section Loop.
Variable py_str_of_float : float -> str.

Lemma set_values_from_in_range buffer : forall index,
  (0 <= index)%Z -> (index + Z.of_nat (List.length buffer) <= NV200_WAVEFORM_BUFFER_SIZE)%Z ->
  appends_ok (set_values_from py_str_of_float index buffer)
             (gparb_cmds py_str_of_float index buffer).
Proof.
  induction buffer as [|v rest IH]; intros index H0 H1.
  - apply appends_ok_of, ret_appends.
  - simpl List.length in H1. rewrite Nat2Z.inj_succ in H1.
    cbn [set_values_from gparb_cmds]. unfold set_waveform_value.
    replace ((0 <=? index)%Z && (index <? NV200_WAVEFORM_BUFFER_SIZE)%Z) with true
      by (symmetry; apply andb_true_iff; split; [apply Z.leb_le|apply Z.ltb_lt]; lia).
    eapply bind_appends_ok; [appends_ok_solve|intros _; apply IH; lia|].
    reflexivity.
Qed.

(** In range, the loop is the sequence of its [gparb] writes: the range
    check of [set_waveform_value] never fires. *)
Lemma set_values_from_writes buffer : forall index,
  (0 <= index)%Z -> (index + Z.of_nat (List.length buffer) <= NV200_WAVEFORM_BUFFER_SIZE)%Z ->
  forall l, set_values_from py_str_of_float index buffer l =
            gparb_writes py_str_of_float index buffer l.
Proof.
  induction buffer as [|v rest IH]; intros index H0 H1 l; [reflexivity|].
  simpl List.length in H1. rewrite Nat2Z.inj_succ in H1.
  cbn [set_values_from gparb_writes]. unfold set_waveform_value.
  replace ((0 <=? index)%Z && (index <? NV200_WAVEFORM_BUFFER_SIZE)%Z) with true
    by (symmetry; apply andb_true_iff; split; [apply Z.leb_le|apply Z.ltb_lt]; lia).
  unfold mbind at 1 2 3. unfold ret.
  destruct (write _ l) as [[u|e] l1]; [apply IH; lia|reflexivity].
Qed.

Lemma gparb_cmds_length buffer : forall index,
  List.length (gparb_cmds py_str_of_float index buffer) = List.length buffer.
Proof. induction buffer; intros; simpl; [reflexivity|]. f_equal. apply IHbuffer. Qed.

Lemma gparb_cmds_nth buffer : forall index i, (i < List.length buffer)%nat ->
  nth i (gparb_cmds py_str_of_float index buffer) [] =
  lit "gparb," ++ py_str_of_int (index + Z.of_nat i) ++ lit "," ++
    py_str_of_float (nth i buffer 0%float) ++ [CR].
Proof.
  induction buffer as [|v rest IH]; intros index i Hi; simpl in Hi; [lia|].
  destruct i as [|i]; simpl.
  - rewrite Z.add_0_r. reflexivity.
  - rewrite IH by lia.
    replace (index + 1 + Z.of_nat i)%Z with (index + Z.of_nat (S i))%Z by lia. reflexivity.
Qed.

End Loop.

(** X13: [set_waveform_buffer] raises [ValueError] without writing anything
    on a buffer of more than 1024 values; otherwise it performs exactly the
    writes [gparb,i,value_i] for [i = 0, 1, ...] in order (whatever each
    write raises is propagated), and when it returns it has written one
    [gparb,i,value_i] command per value, in index order. *)
Theorem waveform_buffer_commands (py_str_of_float : float -> str) (buffer : list float) :
  (forall l, (1024 < List.length buffer)%nat ->
     set_waveform_buffer py_str_of_float buffer l = (Err ValueError, l)) /\
  (forall l, (List.length buffer <= 1024)%nat ->
     set_waveform_buffer py_str_of_float buffer l = gparb_writes py_str_of_float 0 buffer l) /\
  (forall l l' u, set_waveform_buffer py_str_of_float buffer l = (Ok u, l') ->
     exists cmds, sent l' = sent l ++ cmds /\
       List.length cmds = List.length buffer /\
       forall i, (i < List.length buffer)%nat ->
         nth i cmds [] = lit "gparb," ++ py_str_of_int (Z.of_nat i) ++ lit "," ++
                           py_str_of_float (nth i buffer 0%float) ++ [CR]).
Proof.
  unfold set_waveform_buffer, NV200_WAVEFORM_BUFFER_SIZE.
  split; [|split].
  - intros l Hl. replace (1024 <? Z.of_nat (List.length buffer))%Z with true
      by (symmetry; apply Z.ltb_lt; lia). reflexivity.
  - intros l Hl. replace (1024 <? Z.of_nat (List.length buffer))%Z with false
      by (symmetry; apply Z.ltb_ge; lia).
    apply (set_values_from_writes py_str_of_float buffer 0); unfold NV200_WAVEFORM_BUFFER_SIZE; lia.
  - intros l l' u H. destruct (1024 <? Z.of_nat (List.length buffer))%Z eqn:Hl;
      [discriminate|]. apply Z.ltb_ge in Hl.
    assert (Ha : appends_ok (set_values_from py_str_of_float 0 buffer)
                            (gparb_cmds py_str_of_float 0 buffer))
      by (apply set_values_from_in_range; unfold NV200_WAVEFORM_BUFFER_SIZE; lia).
    exists (gparb_cmds py_str_of_float 0 buffer). split; [exact (Ha _ _ _ H)|].
    split; [apply gparb_cmds_length|].
    intros i Hi. rewrite gparb_cmds_nth by exact Hi. reflexivity.
Qed.

Lemma waveform_buffer_commands_witness :
  match set_waveform_buffer (fun _ => lit "0.5") [0.5%float; 1.5%float] idle_link with
  | (Ok _, l') =>
      exists cmds, sent l' = sent idle_link ++ cmds /\
        List.length cmds = List.length [0.5%float; 1.5%float] /\
        forall i, (i < List.length [0.5%float; 1.5%float])%nat ->
          nth i cmds [] = lit "gparb," ++ py_str_of_int (Z.of_nat i) ++ lit "," ++
                            (fun _ => lit "0.5") (nth i [0.5%float; 1.5%float] 0%float) ++ [CR]
  | (Err _, _) => False
  end.
Proof.
  destruct (set_waveform_buffer (fun _ => lit "0.5") [0.5%float; 1.5%float] idle_link)
    as [[u|e] l'] eqn:E.
  - exact (proj2 (proj2 (waveform_buffer_commands _ _)) idle_link l' u E).
  - vm_compute in E. discriminate.
Defined.

(** X14: [set_waveform] always raises [AttributeError] ([WaveformData] has
    no [y_values] attribute) and writes nothing to the device. *)
Theorem set_waveform_attribute_error (py_str_of_float : float -> str)
    (waveform : WaveformData) (adjust_loop : bool) (l : Link) :
  set_waveform py_str_of_float waveform adjust_loop l = (Err AttributeError, l).
Proof. reflexivity. Qed.


(** X15: [set_output_sampling_time] writes one command [gtarb,factor] with
    [factor] between 1 and 65535, and returns a multiple [r] of 50; the
    factor is [r / 50] when [r] is in range, and clamped to 1 or 65535
    otherwise (the value returned is not clamped). *)
Theorem output_sampling_time_factor (sampling_time : PyNum) (l l' : Link) (r : Z) :
  set_output_sampling_time sampling_time l = (Ok r, l') ->
  exists factor,
    sent l' = sent l ++ [lit "gtarb," ++ py_str_of_int factor ++ [CR]] /\
    (1 <= factor <= 65535)%Z /\ (r mod 50 = 0)%Z /\
    ((50 <= r <= 50 * 65535)%Z -> (factor * 50)%Z = r) /\
    ((r < 50)%Z -> factor = 1%Z) /\
    ((50 * 65535 < r)%Z -> factor = 65535%Z).
Proof.
  unfold set_output_sampling_time. intros H.
  apply mbind_ok_inv in H as [q [l1 [E1 H]]]. apply lift_ok_inv in E1 as [_ ->].
  apply mbind_ok_inv in H as [k [l1 [E1 H]]]. apply lift_ok_inv in E1 as [_ ->].
  exists (Z.max 1 (Z.min (k * 50 / 50) 65535)).
  assert (Hd : (k * 50 / 50 = k)%Z) by (apply Z.div_mul; lia). rewrite Hd in *.
  assert (Ha : appends_ok (write (lit "gtarb," ++ py_str_of_int (Z.max 1 (Z.min k 65535))) ;;;
                           ret (k * 50)%Z)
                 [lit "gtarb," ++ py_str_of_int (Z.max 1 (Z.min k 65535)) ++ [CR]]).
  { appends_ok_solve. }
  split; [rewrite (Ha _ _ _ H); reflexivity|].
  apply mbind_ok_inv in H as [u [l2 [_ H]]]. injection H as <- _.
  split; [lia|]. split; [apply Z.mod_mul; lia|]. lia.
Qed.

Definition gtarb1_link : Link := {| sent := [lit "gtarb,1" ++ [CR]]; pending := [] |}.

Lemma output_sampling_time_factor_witness :
  exists factor,
    sent gtarb1_link = sent idle_link ++ [lit "gtarb," ++ py_str_of_int factor ++ [CR]] /\
    (1 <= factor <= 65535)%Z /\ (0 mod 50 = 0)%Z /\
    ((50 <= 0 <= 50 * 65535)%Z -> (factor * 50)%Z = 0%Z) /\
    ((0 < 50)%Z -> factor = 1%Z) /\
    ((50 * 65535 < 0)%Z -> factor = 65535%Z).
Proof.
  apply (output_sampling_time_factor (NInt 10) idle_link gtarb1_link 0%Z).
  vm_compute. reflexivity.
Defined.

End WaveformBufferFacts.


Module LantronixLookupFacts.
Import Lantronix LantronixLookup LantronixScanFacts.
Import Waveform (str_eqb).

Lemma str_eqb_eq a b : str_eqb a b = true -> a = b.
Proof.
  revert b. induction a as [|x a IH]; intros [|y b]; simpl; try discriminate; [reflexivity|].
  intros H. apply andb_true_iff in H as [H1 H2].
  apply Ascii.eqb_eq in H1. subst y. f_equal. apply IH, H2.
Qed.

Lemma find_device_by_mac_some devs target ip :
  find_device_by_mac devs target = Some ip ->
  exists dev, In dev devs /\ MAC dev = target /\ IP dev = ip.
Proof.
  induction devs as [|dev rest IH]; simpl; [discriminate|].
  destruct (str_eqb (MAC dev) target) eqn:E.
  - intros H. injection H as <-. exists dev. split; [left; reflexivity|].
    split; [apply str_eqb_eq, E|reflexivity].
  - intros H. destruct (IH H) as [d [Hin Hd]]. exists d. split; [right; exact Hin|exact Hd].
Qed.

Lemma ascii_upper_idem c : ascii_upper (ascii_upper c) = ascii_upper c.
Proof. destruct c as [[] [] [] [] [] [] [] []]; reflexivity. Qed.

Lemma upper_idem s : upper (upper s) = upper s.
Proof. unfold upper. rewrite map_map. apply map_ext, ascii_upper_idem. Qed.

Lemma parse_responses_in rs dev : In dev (parse_responses rs) ->
  startswith LAMNTONIX_MAC_PREFIX (MAC dev) = true /\ upper (MAC dev) = MAC dev /\
  exists data port, In (data, (IP dev, port)) rs.
Proof.
  induction rs as [|[data [ip port]] rest IH]; cbn [parse_responses]; [intros []|].
  intros H.
  assert (Hrest : In dev (parse_responses rest) ->
    startswith LAMNTONIX_MAC_PREFIX (MAC dev) = true /\ upper (MAC dev) = MAC dev /\
    exists data' port', In (data', (IP dev, port')) ((data, (ip, port)) :: rest)).
  { intros Hin. destruct (IH Hin) as [H1 [H2 [d [p Hd]]]].
    split; [exact H1|]. split; [exact H2|]. exists d, p. right. exact Hd. }
  destruct (negb (List.length data =? LANTRONIX_RESPONSE_SIZE)%nat); [exact (Hrest H)|].
  destruct (negb (startswith LAMNTONIX_MAC_PREFIX (mac_of_payload data))) eqn:Hs;
    [exact (Hrest H)|].
  destruct H as [<-|H]; [|exact (Hrest H)]. cbn [MAC IP fst].
  split; [destruct (startswith _ _); [reflexivity|discriminate]|].
  split; [unfold mac_of_payload; apply upper_idem|].
  exists data, port. left. reflexivity.
Qed.

(** X17: When [discover_lantronix_device] finds an IP for a MAC, the MAC has
    the Lantronix prefix and is upper case, and the IP is the source address
    of a reply received on one of the interfaces. *)
Theorem lookup_by_mac (send_udp_broadcast : str -> result (list Datagram))
    (ifaces : list (str * str)) (target_mac ip : str) :
  discover_lantronix_device send_udp_broadcast ifaces target_mac = Ok (Some ip) ->
  startswith LAMNTONIX_MAC_PREFIX target_mac = true /\
  upper target_mac = target_mac /\
  exists iface responses data port, In iface ifaces /\
    send_udp_broadcast (snd iface) = Ok responses /\
    In (data, (ip, port)) responses.
Proof.
  unfold discover_lantronix_device. intros H.
  destruct (fst (discover_lantronix_devices send_udp_broadcast ifaces)) as [devs|e]
    eqn:Hd; [|discriminate].
  cbn [bind] in H. injection H as H.
  apply find_device_by_mac_some in H as [dev [Hin [<- <-]]].
  destruct (discover_loop_ok_in _ _ _ _ _ Hd Hin) as [iface [rs [H1 [H2 H3]]]].
  destruct (parse_responses_in _ _ H3) as [P1 [P2 [d [p Hdp]]]].
  split; [exact P1|]. split; [exact P2|].
  exists iface, rs, d, p. split; [exact H1|]. split; [exact H2|exact Hdp].
Qed.

(** One interface with one Lantronix device answering. *)
Definition office_network (local_ip : str) : result (list Datagram) :=
  if str_eqb local_ip (lit "192.168.1.10")
  then Ok [(nv_reply Byte.x18, (lit "192.168.1.50", 30718%Z))]
  else Ok [].

Definition office_ifaces : list (str * str) := [(lit "eth0", lit "192.168.1.10")].

Lemma lookup_by_mac_witness :
  startswith LAMNTONIX_MAC_PREFIX (lit "00:80:A3:79:C6:18") = true /\
  upper (lit "00:80:A3:79:C6:18") = lit "00:80:A3:79:C6:18" /\
  exists iface responses data port, In iface office_ifaces /\
    office_network (snd iface) = Ok responses /\
    In (data, (lit "192.168.1.50", port)) responses.
Proof.
  apply (lookup_by_mac office_network office_ifaces (lit "00:80:A3:79:C6:18")
           (lit "192.168.1.50")).
  vm_compute. reflexivity.
Defined.

End LantronixLookupFacts.


Module SamplingAccuracy.
Import Client Waveform WaveformIO RecorderFacts FloatError FloatValid FloatDiv FloatChain.

Lemma div_core_canon mx ex my ey :
  let '(q, e', l) := SFdiv_core_binary prec emax (Zpos mx) ex (Zpos my) ey in
  (0 <= q)%Z /\ (e' <= SpecFloat.fexp prec emax (Zdigits2 q + e'))%Z.
Proof.
  unfold SFdiv_core_binary.
  set (d1 := Zdigits2 (Zpos mx)). set (d2 := Zdigits2 (Zpos my)).
  set (e' := Z.min (SpecFloat.fexp prec emax (d1 + ex - (d2 + ey))) (ex - ey)).
  set (s := (ex - ey - e')%Z).
  assert (Hs : (0 <= s)%Z) by (subst s e'; lia).
  assert (Hm' : match s with Zpos _ => Z.shiftl (Zpos mx) s | Z0 => Zpos mx
                | Zneg _ => 0%Z end = (Zpos mx * 2 ^ s)%Z).
  { destruct s eqn:Es; [simpl; lia | apply Z.shiftl_mul_pow2; lia | lia]. }
  rewrite Hm'.
  pose proof (Z_div_mod (Zpos mx * 2 ^ s) (Zpos my) ltac:(lia)) as Hdm.
  destruct (Z.div_eucl (Zpos mx * 2 ^ s) (Zpos my)) as [q r].
  destruct Hdm as [Heq Hr].
  assert (Hp2 : (0 < 2 ^ s)%Z) by (apply Z.pow_pos_nonneg; lia).
  assert (Hq : (0 <= q)%Z) by nia.
  split; [exact Hq|].
  set (D := (d1 + ex - (d2 + ey))%Z) in *.
  assert (HD : (D <= Zdigits2 q + e')%Z).
  { pose proof (dig_nonneg q).
    destruct (Z_lt_le_dec (d1 + s - d2 - 1) 0) as [Hk|Hk]; [subst D s; lia|].
    set (k := (d1 + s - d2 - 1)%Z) in *.
    pose proof (dig_bounds (Zpos mx) ltac:(lia)) as [Hb1 _].
    pose proof (dig_bounds (Zpos my) ltac:(lia)) as [_ Hb2].
    fold d1 in Hb1. fold d2 in Hb2.
    pose proof (dig_pos (Zpos mx) ltac:(lia)) as Hd1. fold d1 in Hd1.
    pose proof (dig_pos (Zpos my) ltac:(lia)) as Hd2. fold d2 in Hd2.
    assert (Hpow : (2 ^ k * 2 ^ d2 = 2 ^ (d1 - 1) * 2 ^ s)%Z).
    { rewrite <- !Z.pow_add_r by lia. f_equal. subst k. lia. }
    assert (Hk2 : (0 < 2 ^ k)%Z) by (apply Z.pow_pos_nonneg; lia).
    assert (Hqk : (2 ^ k <= q)%Z).
    { destruct (Z_lt_le_dec q (2 ^ k)) as [Hlt|]; [|assumption]. exfalso.
      assert (Zpos my * q + r < Zpos my * 2 ^ k)%Z by nia.
      assert (Zpos my * 2 ^ k < 2 ^ d2 * 2 ^ k)%Z by nia.
      assert (2 ^ (d1 - 1) * 2 ^ s <= Zpos mx * 2 ^ s)%Z by nia.
      lia. }
    assert (Hq0 : (0 < q)%Z) by lia.
    pose proof (dig_bounds q Hq0) as [_ Hq2].
    assert (Hlt : (2 ^ k < 2 ^ Zdigits2 q)%Z) by lia.
    apply Z.pow_lt_mono_r_iff in Hlt; [|lia|apply dig_nonneg].
    unfold k, s in Hlt. unfold D. clear -Hlt. clearbody e' d1 d2. lia. }
  assert (Hmono : (SpecFloat.fexp prec emax D <= SpecFloat.fexp prec emax (Zdigits2 q + e'))%Z)
    by (rewrite !fexp_eq; lia).
  assert (He' : (e' <= SpecFloat.fexp prec emax D)%Z) by (unfold e'; lia).
  lia.
Qed.

Local Open Scope R_scope.

Lemma py_round_bound x k :
  (Prim2SF x = S754_zero false \/ exists m e, Prim2SF x = S754_finite false m e) ->
  py_round x = Ok k -> Rabs (IZR k - pval (Prim2SF x)) <= / 2.
Proof.
  unfold py_round. intros [Hx|[m [e Hx]]]; rewrite Hx; intros H.
  - injection H as <-. simpl. rewrite Rminus_0_r, Rabs_R0. lra.
  - simpl pval. cbv zeta in H.
    destruct (Z.leb_spec 0 e) as [He|He].
    + assert (Hk : k = (Zpos m * 2 ^ e)%Z) by (injection H; auto). subst k.
      rewrite mult_IZR, (bpow_IZR e He), Rminus_diag, Rabs_R0. lra.
    + assert (Hd : (0 < 2 ^ (- e))%Z) by (apply Z.pow_pos_nonneg; lia).
      set (d := (2 ^ (- e))%Z) in *.
      pose proof (Z_div_mod_eq_full (Zpos m) d) as Hdm.
      pose proof (Z.mod_pos_bound (Zpos m) d Hd) as Hmod.
      set (q := (Zpos m / d)%Z) in *. set (rm := (Zpos m mod d)%Z) in *.
      assert (Hk : (2 * Z.abs (k * d - Zpos m) <= d)%Z).
      { destruct (Z.ltb_spec (2 * rm) d); [injection H as <-; lia|].
        destruct (Z.ltb_spec d (2 * rm)); [injection H as <-; lia|].
        destruct (Z.even q); injection H as <-; lia. }
      assert (HdR : 0 < IZR d) by (apply IZR_lt; exact Hd).
      assert (Hbe : bpow e = / IZR d).
      { unfold d. rewrite <- bpow_IZR by lia.
        pose proof (bpow_opp e) as Ho. pose proof (bpow_pos (- e)).
        apply (Rmult_eq_reg_r (bpow (- e))); [|lra]. rewrite Rinv_l by lra. exact Ho. }
      rewrite Hbe.
      replace (IZR k - IZR (Zpos m) * / IZR d) with (IZR (k * d - Zpos m) / IZR d)
        by (rewrite minus_IZR, mult_IZR; field; lra).
      unfold Rdiv. rewrite Rabs_mult, Rabs_inv, (Rabs_pos_eq (IZR d)) by lra.
      rewrite Rabs_Zabs. apply IZR_le in Hk. rewrite mult_IZR in Hk.
      apply (Rmult_le_reg_r (IZR d)); [exact HdR|].
      unfold Rdiv. rewrite Rmult_assoc, Rinv_l by lra. lra.
Qed.

Lemma py_int_truediv_pos pa pb q :
  py_int_truediv (Zpos pa) (Zpos pb) = Ok q ->
  exists mz ez lz, SFdiv_core_binary prec emax (Zpos pa) 0 (Zpos pb) 0 = (mz, ez, lz) /\
    binary_round_aux prec emax false mz ez lz <> S754_infinity false /\
    q = SF2Prim (binary_round_aux prec emax false mz ez lz).
Proof.
  unfold py_int_truediv.
  change (Zpos pb =? 0)%Z with false. change (Z.abs (Zpos pa)) with (Zpos pa).
  change (Z.abs (Zpos pb)) with (Zpos pb).
  change (xorb (Zpos pa <? 0)%Z (Zpos pb <? 0)%Z) with false.
  cbv beta iota.
  destruct (SFdiv_core_binary prec emax (Zpos pa) 0 (Zpos pb) 0) as [[mz ez] lz].
  intros H. exists mz, ez, lz. split; [reflexivity|].
  destruct (binary_round_aux prec emax false mz ez lz) eqn:E;
    try (injection H as <-; split; [discriminate|reflexivity]); discriminate.
Qed.

(** X16: For an integer sampling time [t] from 0 to 2^50 microseconds,
    [set_output_sampling_time] returns a value within 25 us of [t]: the
    float division and [round] lose nothing beyond the rounding to a
    multiple of 50. *)
Theorem sampling_time_accuracy (sampling_time : Z) (l l' : Link) (r : Z) :
  (0 <= sampling_time <= 2 ^ 50)%Z ->
  set_output_sampling_time (NInt sampling_time) l = (Ok r, l') ->
  (Z.abs (r - sampling_time) <= 25)%Z.
Proof.
  intros Ht H. unfold set_output_sampling_time in H.
  apply mbind_ok_inv in H as [q [l1 [E1 H]]]. injection E1 as Eq <-.
  apply mbind_ok_inv in H as [k [l1 [E1 H]]]. injection E1 as Ek <-.
  apply mbind_ok_inv in H as [u0 [l2 [_ H]]]. injection H as <- _.
  cbn [py_div_int] in Eq.
  destruct sampling_time as [|pt|pt]; [| |lia].
  - vm_compute in Eq. injection Eq as <-. vm_compute in Ek. injection Ek as <-. simpl. lia.
  - apply py_int_truediv_pos in Eq as [mz [ez [lz [Ediv [Hninf ->]]]]].
    pose proof (div_core_inbetween pt 0 50 0) as HI.
    pose proof (div_core_canon pt 0 50 0) as HC.
    rewrite Ediv in HI, HC. destruct HC as [Hmz Hez].
    pose proof (binary_round_aux_bounds _ _ _ _ HI) as [Hshape Hbnd].
    pose proof (binary_round_aux_valid false mz ez lz Hmz Hez) as Hval.
    specialize (Hbnd Hninf). cbv zeta in Hbnd.
    set (z := binary_round_aux prec emax false mz ez lz) in *.
    assert (Hz : Prim2SF (SF2Prim z) = z) by (apply Prim2SF_SF2Prim; exact Hval).
    assert (Hround : Rabs (IZR k - pval z) <= / 2).
    { rewrite <- Hz. apply py_round_bound; [|exact Ek].
      rewrite Hz. destruct Hshape as [H0|[H0|H0]]; [left; exact H0|right; exact H0|].
      exfalso. exact (Hninf H0). }
    assert (HX : IZR (Zpos pt) * bpow 0 / (IZR 50 * bpow 0) = IZR (Zpos pt) / 50).
    { rewrite bpow_0. field. }
    rewrite HX in Hbnd.
    assert (Htb : IZR (Zpos pt) <= bpow 50).
    { rewrite bpow_IZR by lia. apply IZR_le. lia. }
    assert (Hub : u * bpow 50 = / 4).
    { unfold u. rewrite <- bpow_plus. change (-52 + 50)%Z with (-2)%Z. unfold bpow. simpl. lra. }
    pose proof u_pos. pose proof eta_pos. pose proof eta_le_u. pose proof u_tiny.
    assert (Hpt0 : 0 < IZR (Zpos pt)) by (apply IZR_lt; lia).
    assert (Hut : u * IZR (Zpos pt) <= / 4).
    { rewrite <- Hub. apply Rmult_le_compat_l; lra. }
    assert (R1 : IZR k - pval z <= / 2) by (eapply Rle_trans; [apply Rle_abs|exact Hround]).
    assert (R2 : - (IZR k - pval z) <= / 2).
    { rewrite <- Rabs_Ropp in Hround. eapply Rle_trans; [apply Rle_abs|exact Hround]. }
    assert (Hlo : IZR (k * 50 - Zpos pt) < 26).
    { rewrite minus_IZR, mult_IZR. nra. }
    assert (Hhi : -26 < IZR (k * 50 - Zpos pt)).
    { rewrite minus_IZR, mult_IZR. nra. }
    apply lt_IZR in Hlo. apply lt_IZR in Hhi. lia.
Qed.

Definition gtarb21_link : Link := {| sent := [lit "gtarb,21" ++ [CR]]; pending := [] |}.

Lemma sampling_time_accuracy_witness : (Z.abs (1050 - 1030) <= 25)%Z.
Proof.
  apply (sampling_time_accuracy 1030 LinkFacts.idle_link gtarb21_link 1050).
  - split; vm_compute; discriminate.
  - vm_compute. reflexivity.
Defined.

End SamplingAccuracy.
